(** * Official-site discovery and contact extraction (sales_lead_builder)

    A shallow embedding of [site_selector.py] and [site_scraper.py]:
    the candidate selector, the bounded crawler and the contact extractor.

    Python [str] values are Rocq strings holding their UTF-8 bytes.  UTF-8 is
    self-synchronising and order-preserving, so substring tests, prefix and
    suffix tests, removal of a literal and code-point ordering on [str]
    coincide with the byte-level operations used here.

    Third-party behaviour (urllib, BeautifulSoup, the [re] engine on the two
    compiled patterns, phonenumbers, tldextract, the Unicode-aware [str]
    methods) is not re-implemented: it is the interface [PyLib], and every
    general theorem holds for all of its implementations. *)

From Stdlib Require Import String Ascii List ZArith QArith Bool Lia Arith.
From Stdlib Require Import Sorted Permutation OrdersEx.
Import ListNotations.
Open Scope string_scope.
Open Scope list_scope.
Open Scope Z_scope.

Set Implicit Arguments.

(* ------------------------------------------------------------------ *)
(** ** Python string and container primitives *)

Module Py.

(** Truthiness of a [str]: the empty string is falsy. *)
Definition nonempty (s : string) : bool :=
  match s with EmptyString => false | String _ _ => true end.

(** Truthiness of an [Optional[str]]: [None] and the empty string are falsy. *)
Definition truthy (o : option string) : bool :=
  match o with None => false | Some s => nonempty s end.

(** Truthiness of a list. *)
Definition some {A} (l : list A) : bool :=
  match l with [] => false | _ :: _ => true end.

(** [s.startswith(p)] *)
Definition startswith (s p : string) : bool := String.prefix p s.

(** [needle in hay] *)
Fixpoint str_in (needle hay : string) : bool :=
  String.prefix needle hay ||
  match hay with
  | EmptyString => false
  | String _ rest => str_in needle rest
  end.

(** [s.endswith(suffix)] *)
Fixpoint endswith (s suffix : string) : bool :=
  String.eqb s suffix ||
  match s with
  | EmptyString => false
  | String _ rest => endswith rest suffix
  end.

(** [any(k in hay for k in keywords)] *)
Definition any_in (keywords : list string) (hay : string) : bool :=
  existsb (fun k => str_in k hay) keywords.

(** [s.replace(old, empty)] for a literal [old]: occurrences are removed
    left to right without overlap.  [skip] counts the characters of the
    occurrence being dropped. *)
Fixpoint remove_from (old : string) (skip : nat) (s : string) : string :=
  match s with
  | EmptyString => EmptyString
  | String c rest =>
      match skip with
      | S k => remove_from old k rest
      | O =>
          if String.prefix old s
          then remove_from old (Nat.pred (String.length old)) rest
          else String c (remove_from old O rest)
      end
  end.

Definition remove (s old : string) : string :=
  if nonempty old then remove_from old O s else s.

(** [re.sub] of a negated character class by the empty string. *)
Fixpoint keep (class : ascii -> bool) (s : string) : string :=
  match s with
  | EmptyString => EmptyString
  | String c rest =>
      if class c then String c (keep class rest) else keep class rest
  end.

Definition between (lo hi c : ascii) : bool :=
  (N.leb (N_of_ascii lo) (N_of_ascii c) && N.leb (N_of_ascii c) (N_of_ascii hi))%bool.

Definition is_digit (c : ascii) : bool := between "0" "9" c.
Definition is_lower_alnum (c : ascii) : bool := between "a" "z" c || is_digit c.
Definition is_digit_or_plus (c : ascii) : bool := is_digit c || Ascii.eqb c "+".

(** [s.split(sep, 1)[0]] for a one-character separator. *)
Fixpoint before_first (sep : ascii) (s : string) : string :=
  match s with
  | EmptyString => EmptyString
  | String c rest =>
      if Ascii.eqb c sep then EmptyString else String c (before_first sep rest)
  end.

(** [s.split(sep, 1)[1]] for a one-character separator that occurs in [s]. *)
Fixpoint after_first (sep : ascii) (s : string) : string :=
  match s with
  | EmptyString => EmptyString
  | String c rest => if Ascii.eqb c sep then rest else after_first sep rest
  end.

(** [sorted(set(l))]: insertion into a strictly increasing list. *)
Fixpoint insert (x : string) (l : list string) : list string :=
  match l with
  | [] => [x]
  | y :: rest =>
      match String.compare x y with
      | Lt => x :: l
      | Eq => l
      | Gt => y :: insert x rest
      end
  end.

Definition sorted_set (l : list string) : list string :=
  fold_right insert [] l.

(** The order of [sorted] on [str]. *)
Definition lt (a b : string) : Prop := String.compare a b = Lt.

(** A [dict] with [str] keys, in insertion order. *)
Definition dict := list (string * string).

Fixpoint get (d : dict) (k : string) : option string :=
  match d with
  | [] => None
  | (k', v) :: rest => if String.eqb k' k then Some v else get rest k
  end.

(** [d[k] = v]: overwrite in place, or append a new key. *)
Fixpoint set (d : dict) (k v : string) : dict :=
  match d with
  | [] => [(k, v)]
  | (k', v') :: rest =>
      if String.eqb k' k then (k', v) :: rest else (k', v') :: set rest k v
  end.

(** [k in d] *)
Definition mem (d : dict) (k : string) : bool :=
  match get d k with None => false | Some _ => true end.

(** [x in s] for a [set] of strings kept as a list. *)
Definition elem (x : string) (s : list string) : bool :=
  existsb (String.eqb x) s.

End Py.

(* ------------------------------------------------------------------ *)
(** ** Data model ([models.py], [config.py]) *)

Module SearchResult.
Record t := mk { title : string; url : string;
                 snippet : option string; rank : option Z }.
End SearchResult.

Module PageContent.
Record t := mk { url : string; html : string; text : string }.
End PageContent.

Module Settings.
(** Only the two crawl limits are read by the engine; both are Python
    [int]s taken from the environment without validation. *)
Record t := mk { crawler_max_pages : Z; crawler_max_depth : Z }.
End Settings.

Module ExtractionResult.
Record t := mk {
  contact_form_url : option string;
  email_main : option string;
  email_role_based : list string;
  email_guessed : list string;
  phone_main : option string;
  fax_main : option string;
  sns : Py.dict;
  evidence_sources : list string }.

Definition empty : t := mk None None [] [] None None [] [].
End ExtractionResult.

(* ------------------------------------------------------------------ *)
(** ** The third-party interface *)

(** What the code reads from an [<a href=...>] tag. *)
Record Anchor := { href : string; get_text : string }.

(** The views of a parsed document that the code uses:
    [soup.find_all("a", href=True)] as [anchors] (document order) and
    [soup.stripped_strings]. *)
Record Soup := { anchors : list Anchor; stripped_strings : list string }.

(** [urllib.parse.ParseResult] *)
Record ParseResult := {
  scheme : string; netloc : string; path : string;
  params : string; query : string; fragment : string }.

(** [tldextract.ExtractResult] *)
Record ExtractResult := { subdomain : string; domain : string; suffix : string }.

Class PyLib := {
  str_lower : string -> string;
  str_upper : string -> string;
  str_strip : string -> string;
  urlparse : string -> ParseResult;
  (** [ParseResult.geturl()] *)
  geturl : ParseResult -> string;
  (** [ParseResult.hostname] *)
  hostname : ParseResult -> option string;
  urljoin : string -> string -> string;
  (** [BeautifulSoup(html, "html.parser")] *)
  BeautifulSoup : string -> Soup;
  (** [EMAIL_PATTERN.findall(text)] *)
  EMAIL_PATTERN_findall : string -> list string;
  (** [bool(EMAIL_PATTERN.fullmatch(s))] *)
  EMAIL_PATTERN_fullmatch : string -> bool;
  (** [PHONE_PATTERN.findall(text)] *)
  PHONE_PATTERN_findall : string -> list string;
  (** [re.search(re.escape(literal), text, re.IGNORECASE)] found a match *)
  re_search_ignorecase : string -> string -> bool;
  PhoneNumber : Type;
  (** [phonenumbers.parse(digits, region)]; [None] is [NumberParseException] *)
  phonenumbers_parse : string -> option string -> option PhoneNumber;
  is_valid_number : PhoneNumber -> bool;
  (** [phonenumbers.format_number(p, PhoneNumberFormat.E164)] *)
  format_number_E164 : PhoneNumber -> string;
  (** [tldextract.extract(url)] *)
  tldextract_extract : string -> ExtractResult
}.

(** [soup.get_text(" ", strip=True)] joins the stripped strings. *)
Definition soup_text (s : Soup) : string :=
  String.concat " " (stripped_strings s).

(** The page fetcher is the only effect: a call may succeed or fail and may
    change the outside world, so it threads a world state.  [None] is the
    fetcher's "no page" answer (a caught [requests.RequestException]). *)
Definition Fetcher (World : Type) : Type :=
  string -> World -> option PageContent.t * World.

(** A fetcher that also records each call and its outcome, in call order. *)
Abbreviation Log := (list (string * option PageContent.t)).

Definition logged {World} (fetch : Fetcher World) : Fetcher (World * Log) :=
  fun u st =>
    let '(w, log) := st in
    let '(r, w') := fetch u w in
    (r, (w', log ++ [(u, r)])).

(* ------------------------------------------------------------------ *)
(** ** Shared vocabulary ([site_scraper.py], lines 21-49) *)

Definition CONTACT_KEYWORDS : list string :=
  ["contact"; "inquiry"; "form"; "お問い合わせ"; "問合せ"; "連絡"; "資料請求"].

Definition ROLE_EMAIL_KEYWORDS : list string :=
  ["info"; "sales"; "support"; "contact"; "inquiry"; "customer"; "hello";
   "pr"; "press"; "ir"].

Definition SNS_PATTERNS : list (string * list string) :=
  [("sns_linkedin", ["linkedin.com/company"; "linkedin.com/in"]);
   ("sns_x", ["twitter.com"; "x.com"]);
   ("sns_instagram", ["instagram.com"]);
   ("sns_facebook", ["facebook.com"; "fb.me"])].

(** [pick_best_domain] *)
Definition pick_best_domain `{PyLib} (url : string) : string :=
  let extracted := tldextract_extract url in
  String.concat "." (filter Py.nonempty [domain extracted; suffix extracted]).

(* ------------------------------------------------------------------ *)
(** ** OfficialSiteSelector ([site_selector.py]) *)

Module Selector.

Definition OFFICIAL_KEYWORDS : list string :=
  ["会社概要"; "企業情報"; "企業案内"; "About"; "Corporate"; "沿革"].

Record SiteCandidate := mk {
  search_result : SearchResult.t;
  page : option PageContent.t;
  score : Q }.

(** [a < b] on scores.  Every score is a short sum of 3.0, 2.0, 1.0, 0.5
    and -2.0, all exact in binary floating point, so rationals compute
    the same values and the same comparisons. *)
Definition Qltb (a b : Q) : bool := negb (Qle_bool b a).

Section WithLib.
Context `{PyLib}.

Definition _normalize_company_name (name : string) : string :=
  let normalized := str_lower name in
  let normalized := Py.remove normalized "株式会社" in
  let normalized := Py.remove normalized "有限会社" in
  let normalized := Py.remove normalized "inc." in
  let normalized := Py.remove normalized "co., ltd." in
  Py.keep Py.is_lower_alnum normalized.

Definition _score_candidate (normalized_name : string) (page : PageContent.t) : Q :=
  let score := 0%Q in
  let parsed := urlparse (PageContent.url page) in
  let hostname := match hostname parsed with Some h => h | None => EmptyString end in
  let score :=
    if Py.nonempty normalized_name
       && Py.str_in normalized_name (_normalize_company_name hostname)
    then (score + 3)%Q else score in
  let score :=
    if re_search_ignorecase normalized_name (PageContent.text page)
    then (score + 2)%Q else score in
  let score :=
    fold_left
      (fun score keyword =>
         if Py.str_in keyword (PageContent.text page) then (score + 1)%Q else score)
      OFFICIAL_KEYWORDS score in
  let score :=
    if Py.any_in CONTACT_KEYWORDS (PageContent.text page)
    then (score + (1 # 2))%Q else score in
  let score :=
    if Py.endswith hostname ".go.jp" then (score - 2)%Q else score in
  score.

Section WithFetcher.
Context {World : Type} (fetch : Fetcher World).

(** The body of the [for result in candidates] loop, with the loop
    variable [best] and the world threaded through. *)
Fixpoint select_loop (normalized_name : string)
         (candidates : list SearchResult.t)
         (best : option SiteCandidate) (w : World)
  : option SiteCandidate * World :=
  match candidates with
  | [] => (best, w)
  | result :: rest =>
      if negb (Py.nonempty (SearchResult.url result))
      then select_loop normalized_name rest best w
      else
        let '(fetched, w) := fetch (SearchResult.url result) w in
        match fetched with
        | None => select_loop normalized_name rest best w
        | Some page =>
            let score := _score_candidate normalized_name page in
            let best :=
              match best with
              | None => Some (mk result (Some page) score)
              | Some b =>
                  if Qltb (Selector.score b) score
                  then Some (mk result (Some page) score)
                  else best
              end in
            select_loop normalized_name rest best w
        end
  end.

Definition select (company_name : string)
           (candidates : list SearchResult.t) (w : World)
  : option SiteCandidate * World :=
  select_loop (_normalize_company_name company_name) candidates None w.

(** The candidates whose fetch succeeds during a run of [select], in
    input order, each with its page and score. *)
Fixpoint fetched_candidates (normalized_name : string)
         (candidates : list SearchResult.t) (w : World)
  : list SiteCandidate :=
  match candidates with
  | [] => []
  | result :: rest =>
      if negb (Py.nonempty (SearchResult.url result))
      then fetched_candidates normalized_name rest w
      else
        let '(fetched, w) := fetch (SearchResult.url result) w in
        match fetched with
        | None => fetched_candidates normalized_name rest w
        | Some page =>
            mk result (Some page) (_score_candidate normalized_name page)
            :: fetched_candidates normalized_name rest w
        end
  end.

End WithFetcher.
End WithLib.

(** The choice made by the loop, as a fold over the fetched candidates. *)
Definition keep_best (best : option SiteCandidate) (c : SiteCandidate)
  : option SiteCandidate :=
  match best with
  | None => Some c
  | Some b => if Qltb (score b) (score c) then Some c else best
  end.

End Selector.

(* ------------------------------------------------------------------ *)
(** ** SiteCrawler ([site_scraper.py], lines 76-123) *)

Module Crawler.

(** The loop variables of [crawl] together with the outside world. *)
Record State (World : Type) := mkState {
  queue : list (string * Z);
  visited : list string;
  results : list PageContent.t;
  world : World }.

(** The effect of one discovered link on the double-ended queue. *)
Inductive Push :=
| Skip
| AppendLeft (entry : string * Z)
| Append (entry : string * Z).

Definition push (queue : list (string * Z)) (p : Push) : list (string * Z) :=
  match p with
  | Skip => queue
  | AppendLeft entry => entry :: queue
  | Append entry => queue ++ [entry]
  end.

Definition push_entry (p : Push) : option (string * Z) :=
  match p with
  | Skip => None
  | AppendLeft entry | Append entry => Some entry
  end.

Section WithLib.
Context `{PyLib} {World : Type} (fetch : Fetcher World) (settings : Settings.t).

(** [parsed._replace(fragment=...)] with the empty string *)
Definition without_fragment (p : ParseResult) : ParseResult :=
  {| scheme := scheme p; netloc := netloc p; path := path p;
     params := params p; query := query p; fragment := EmptyString |}.

Definition _normalize_url (url : string) : string :=
  let parsed := urlparse url in
  let normalized := geturl (without_fragment parsed) in
  normalized.

(** What the body of [for link in soup.find_all("a", href=True)] does to
    the queue for one link: nothing ([continue]), [queue.appendleft] or
    [queue.append]. *)
Definition link_push (base_host : string) (page : PageContent.t) (depth : Z)
           (link : Anchor) : Push :=
  let href := href link in
  if negb (Py.nonempty href) then Skip
  else
    let abs_url := urljoin (PageContent.url page) href in
    let parsed := urlparse abs_url in
    if negb (String.eqb (scheme parsed) "http" || String.eqb (scheme parsed) "https")
    then Skip
    else if negb (String.eqb (netloc parsed) base_host) then Skip
    else if Py.any_in CONTACT_KEYWORDS (str_lower href)
    then AppendLeft (abs_url, depth + 1)
    else Append (abs_url, depth + 1).

Definition enqueue_links (base_host : string) (page : PageContent.t) (depth : Z)
           (queue : list (string * Z)) : list (string * Z) :=
  let soup := BeautifulSoup (PageContent.html page) in
  fold_left push (map (link_push base_host page depth) (anchors soup)) queue.

(** One iteration of the [while] loop; [None] when its condition
    [queue and len(results) < crawler_max_pages] is false. *)
Definition step (base_host : string) (s : State World) : option (State World) :=
  match queue s with
  | [] => None
  | (url, depth) :: queue =>                       (* queue.popleft() *)
      if negb (Z.of_nat (length (results s)) <? Settings.crawler_max_pages settings)
      then None
      else
        let normalized_url := _normalize_url url in
        if Py.elem normalized_url (visited s)
        then Some (mkState queue (visited s) (results s) (world s))
        else
          let visited := normalized_url :: visited s in
          let '(page, w) := fetch url (world s) in
          match page with
          | None => Some (mkState queue visited (results s) w)
          | Some page =>
              let results := results s ++ [page] in
              if depth >=? Settings.crawler_max_depth settings
              then Some (mkState queue visited results w)
              else Some (mkState (enqueue_links base_host page depth queue)
                                 visited results w)
          end
  end.

(** The [while] loop, at most [fuel] iterations; [None] when the fuel
    runs out before the loop condition fails. *)
Fixpoint crawl_loop (fuel : nat) (base_host : string) (s : State World)
  : option (State World) :=
  match step base_host s with
  | None => Some s
  | Some s' =>
      match fuel with
      | O => None
      | S fuel => crawl_loop fuel base_host s'
      end
  end.

Definition initial (base_url : string) (w : World) : State World :=
  mkState [(base_url, 0)] [] [] w.

Definition crawl (fuel : nat) (base_url : string) (w : World)
  : option (list PageContent.t * World) :=
  let base_host := netloc (urlparse base_url) in
  match crawl_loop fuel base_host (initial base_url w) with
  | None => None
  | Some s => Some (results s, world s)
  end.

(** The entries taken from the queue by the first [n] iterations, in
    order. *)
Fixpoint dequeued (n : nat) (base_host : string) (s : State World)
  : list (string * Z) :=
  match n with
  | O => []
  | S n =>
      match step base_host s, queue s with
      | Some s', entry :: _ => entry :: dequeued n base_host s'
      | _, _ => []
      end
  end.

(** *** Following one queue entry

    Queue entries are plain [(url, depth)] pairs and equal pairs may be
    queued several times, so an entry is followed by its position. *)

(** The links read by the iteration that starts in [s], each with its
    effect on the queue; empty when the iteration discovers nothing. *)
Definition step_links (base_host : string) (s : State World)
  : list (Anchor * Push) :=
  match queue s with
  | [] => []
  | (url, depth) :: _ =>
      if negb (Z.of_nat (length (results s)) <? Settings.crawler_max_pages settings)
      then []
      else if Py.elem (_normalize_url url) (visited s) then []
      else
        match fst (fetch url (world s)) with
        | None => []
        | Some page =>
            if depth >=? Settings.crawler_max_depth settings then []
            else
              map (fun link => (link, link_push base_host page depth link))
                  (anchors (BeautifulSoup (PageContent.html page)))
        end
  end.

Definition is_left (p : Push) : bool :=
  match p with AppendLeft _ => true | _ => false end.

Definition is_right (p : Push) : bool :=
  match p with Append _ => true | _ => false end.

(** The entries pushed on the left, and on the right, in link order. *)
Definition left_entries (ps : list Push) : list (string * Z) :=
  flat_map (fun p => match p with AppendLeft e => [e] | _ => [] end) ps.

Definition right_entries (ps : list Push) : list (string * Z) :=
  flat_map (fun p => match p with Append e => [e] | _ => [] end) ps.

Definition count_left (ps : list Push) : nat := length (filter is_left ps).
Definition count_right (ps : list Push) : nat := length (filter is_right ps).

(** Where the entry pushed for the [i]-th link stands in the queue once
    all links of the page are pushed onto a queue of [n] entries. *)
Definition link_position (ps : list Push) (n : nat) (i : nat) : option nat :=
  match nth_error ps i with
  | Some (AppendLeft _) => Some (count_left (skipn (S i) ps))
  | Some (Append _) => Some (count_left ps + n + count_right (firstn i ps))%nat
  | _ => None
  end.

(** The number of iterations after which the entry at position [pos] of
    the queue of [s] is taken from the queue, within [n] iterations.  An
    iteration takes position 0 and moves every other entry by the number
    of entries it pushes on the left, minus one. *)
Fixpoint dequeue_time (n : nat) (base_host : string) (s : State World) (pos : nat)
  : option nat :=
  match n with
  | O => None
  | S n =>
      match step base_host s with
      | None => None
      | Some s' =>
          match pos with
          | O => Some O
          | S p =>
              option_map S
                (dequeue_time n base_host s'
                   (count_left (map snd (step_links base_host s)) + p))
          end
      end
  end.

(** The prioritisation property for a given notion of contact link: of two
    links read from the same page, one a contact link and the other not,
    both queued, each stands in the queue at its [link_position], and
    whenever the entry of the other link is taken from the queue, the
    entry of the contact link was taken at a strictly earlier iteration. *)
Definition contact_links_first (is_contact : Anchor -> bool) : Prop :=
  forall (base_host : string) (s s' : State World),
    step base_host s = Some s' ->
    forall (i j : nat) (a b : Anchor) (pa pb : Push) (pos_a pos_b : nat),
      nth_error (step_links base_host s) i = Some (a, pa) ->
      nth_error (step_links base_host s) j = Some (b, pb) ->
      is_contact a = true ->
      is_contact b = false ->
      link_position (map snd (step_links base_host s))
                    (Nat.pred (length (queue s))) i = Some pos_a ->
      link_position (map snd (step_links base_host s))
                    (Nat.pred (length (queue s))) j = Some pos_b ->
      (nth_error (queue s') pos_a = push_entry pa
       /\ nth_error (queue s') pos_b = push_entry pb)
      /\ forall (n t_b : nat),
          dequeue_time n base_host s' pos_b = Some t_b ->
          nth_error (dequeued (S t_b) base_host s') t_b = push_entry pb
          /\ exists t_a,
              dequeue_time n base_host s' pos_a = Some t_a
              /\ (t_a < t_b)%nat
              /\ nth_error (dequeued (S t_a) base_host s') t_a = push_entry pa.

(** The pages still allowed by the page limit: with the queue length, the
    measure that decreases at every iteration. *)
Definition budget (s : State World) : nat :=
  Z.to_nat (Settings.crawler_max_pages settings - Z.of_nat (length (results s))).

(** The two readings of "contact link" for a discovered link: by its
    [href], as the loop tests it, and by its anchor text. *)
Definition href_has_keyword (link : Anchor) : bool :=
  Py.any_in CONTACT_KEYWORDS (str_lower (href link)).

Definition anchor_text_has_keyword (link : Anchor) : bool :=
  Py.any_in CONTACT_KEYWORDS (str_lower (get_text link)).



End WithLib.

Arguments queue {World} _.
Arguments visited {World} _.
Arguments results {World} _.
Arguments world {World} _.

Section AsStated.
Context `{PyLib} {World : Type} (fetch : Fetcher World) (settings : Settings.t).



End AsStated.

End Crawler.

(* ------------------------------------------------------------------ *)
(** ** Contact extraction ([site_scraper.py], lines 132-285) *)

Module Extractor.
Import ExtractionResult.

(** Field assignments on the accumulator. *)
Definition set_contact_form_url (e : t) (v : option string) : t :=
  mk v (email_main e) (email_role_based e) (email_guessed e)
     (phone_main e) (fax_main e) (sns e) (evidence_sources e).

Definition set_email_main (e : t) (v : option string) : t :=
  mk (contact_form_url e) v (email_role_based e) (email_guessed e)
     (phone_main e) (fax_main e) (sns e) (evidence_sources e).

Definition set_email_role_based (e : t) (v : list string) : t :=
  mk (contact_form_url e) (email_main e) v (email_guessed e)
     (phone_main e) (fax_main e) (sns e) (evidence_sources e).

Definition set_email_guessed (e : t) (v : list string) : t :=
  mk (contact_form_url e) (email_main e) (email_role_based e) v
     (phone_main e) (fax_main e) (sns e) (evidence_sources e).

Definition set_phone_main (e : t) (v : option string) : t :=
  mk (contact_form_url e) (email_main e) (email_role_based e) (email_guessed e)
     v (fax_main e) (sns e) (evidence_sources e).

Definition set_fax_main (e : t) (v : option string) : t :=
  mk (contact_form_url e) (email_main e) (email_role_based e) (email_guessed e)
     (phone_main e) v (sns e) (evidence_sources e).

Definition set_sns (e : t) (v : Py.dict) : t :=
  mk (contact_form_url e) (email_main e) (email_role_based e) (email_guessed e)
     (phone_main e) (fax_main e) v (evidence_sources e).

Definition set_evidence_sources (e : t) (v : list string) : t :=
  mk (contact_form_url e) (email_main e) (email_role_based e) (email_guessed e)
     (phone_main e) (fax_main e) (sns e) v.

Section WithLib.
Context `{PyLib}.

(** The test of [_find_contact_link] on one anchor. *)
Definition is_contact_anchor (anchor : Anchor) : bool :=
  let label := str_lower (str_strip (get_text anchor)) in
  let href := href anchor in
  let haystack := (label ++ " " ++ str_lower href)%string in
  Py.any_in CONTACT_KEYWORDS haystack.

Definition _find_contact_link (soup : Soup) (current_url : string) : option string :=
  match find is_contact_anchor (anchors soup) with
  | Some anchor => Some (urljoin current_url (href anchor))
  | None => None
  end.

Definition _is_email (email : string) : bool :=
  EMAIL_PATTERN_fullmatch (str_strip email).

Definition _is_role_email (email : string) : bool :=
  let local_part := Py.before_first "@" email in
  let normalized := str_lower (Py.remove (Py.remove local_part "-") "_") in
  existsb (fun keyword =>
             Py.startswith normalized keyword || Py.str_in keyword normalized)
          ROLE_EMAIL_KEYWORDS.

(** [soup.select] on the selector for anchors whose [href] starts with
    the mailto scheme: the anchors with that prefix, in document order. *)
Definition mailto_anchors (soup : Soup) : list Anchor :=
  filter (fun a => Py.startswith (href a) "mailto:") (anchors soup).

(** The addresses added to the set [emails], in the order of the two
    loops: mailto anchors first, then matches in the visible text. *)
Definition scanned_emails (soup : Soup) : list string :=
  flat_map
    (fun mailto =>
       let href := href mailto in
       if Py.nonempty href then
         let email := Py.after_first ":" href in
         if _is_email email then [str_lower email] else []
       else [])
    (mailto_anchors soup)
  ++ flat_map
       (fun m => if _is_email m then [str_lower m] else [])
       (EMAIL_PATTERN_findall (soup_text soup)).

Definition _extract_emails_from_page (soup : Soup) : list string :=
  Py.sorted_set (scanned_emails soup).

Definition _normalize_phone (raw : string) : option string :=
  let digits := Py.keep Py.is_digit_or_plus raw in
  if negb (Py.nonempty digits) then None
  else
    match (if Py.startswith digits "+"
           then phonenumbers_parse digits None
           else phonenumbers_parse digits (Some "JP")) with
    | None => None                       (* NumberParseException *)
    | Some parsed =>
        if negb (is_valid_number parsed) then None
        else Some (format_number_E164 parsed)
    end.

(** The body of the loop over [text_snippets]. *)
Definition scan_snippet (st : option string * option string) (snippet : string)
  : option string * option string :=
  let '(phone, fax) := st in
  if Py.str_in "FAX" (str_upper snippet) || Py.str_in "ＦＡＸ" snippet then
    let candidate := _normalize_phone snippet in
    if Py.truthy candidate then (phone, candidate) else (phone, fax)
  else if Py.any_in ["TEL"; "電話"; "Phone"; "電話番号"] snippet then
    let candidate := _normalize_phone snippet in
    if Py.truthy candidate then (candidate, fax) else (phone, fax)
  else (phone, fax).

(** The body of the fallback loop over [PHONE_PATTERN.findall]. *)
Definition scan_match (phone : option string) (m : string) : option string :=
  let normalized := _normalize_phone m in
  if Py.truthy normalized && negb (Py.truthy phone) then normalized else phone.

Definition _extract_phone_fax (soup : Soup) : option string * option string :=
  let text_snippets :=
    map str_strip (filter Py.nonempty (stripped_strings soup)) in
  let '(phone, fax) := fold_left scan_snippet text_snippets (None, None) in
  let phone :=
    if negb (Py.truthy phone) || negb (Py.truthy fax) then
      let full_text := soup_text soup in
      fold_left scan_match (PHONE_PATTERN_findall full_text) phone
    else phone in
  (phone, fax).

(** Whether [abs_url], lower-cased, contains one of the [patterns]. *)
Definition sns_match (patterns : list string) (abs_url : string) : bool :=
  Py.any_in patterns (str_lower abs_url).

(** The body of the loop over the anchors in [_extract_sns_links]. *)
Definition scan_sns_anchor (current_url : string) (results : Py.dict)
           (anchor : Anchor) : Py.dict :=
  let href := href anchor in
  let abs_url := urljoin current_url href in
  fold_left
    (fun results (entry : string * list string) =>
       let '(key, patterns) := entry in
       if sns_match patterns abs_url then Py.set results key abs_url else results)
    SNS_PATTERNS results.

Definition _extract_sns_links (soup : Soup) (current_url : string) : Py.dict :=
  fold_left (scan_sns_anchor current_url) (anchors soup) [].

Definition _guess_role_emails (domain : string) : list string :=
  let domain := str_lower domain in
  if negb (Py.nonempty domain) then []
  else
    [("info@" ++ domain)%string;
     ("contact@" ++ domain)%string;
     ("sales@" ++ domain)%string;
     ("support@" ++ domain)%string;
     ("inquiry@" ++ domain)%string].

(** The accumulator [extraction] and the set [evidence]; the set is kept
    as the list of what was added and is de-duplicated when it is sorted. *)
Definition Acc : Type := ExtractionResult.t * list string.

(** Contact form URL detection. *)
Definition scan_contact_link (acc : Acc) (soup : Soup) (page : PageContent.t) : Acc :=
  let '(extraction, evidence) := acc in
  if negb (Py.truthy (contact_form_url extraction)) then
    match _find_contact_link soup (PageContent.url page) with
    | Some link =>
        if Py.nonempty link
        then (set_contact_form_url extraction (Some link), link :: evidence)
        else (extraction, evidence)
    | None => (extraction, evidence)
    end
  else (extraction, evidence).

(** Emails. *)
Definition scan_emails (acc : Acc) (soup : Soup) (page : PageContent.t) : Acc :=
  let '(extraction, evidence) := acc in
  let emails := _extract_emails_from_page soup in
  let role_emails := filter _is_role_email emails in
  let extraction :=
    match role_emails with
    | first :: _ =>
        if negb (Py.truthy (email_main extraction))
        then set_email_main extraction (Some first)
        else extraction
    | [] => extraction
    end in
  let extraction :=
    if Py.some role_emails then
      set_email_role_based extraction (email_role_based extraction ++ role_emails)
    else
      match emails with
      | first :: _ =>
          if negb (Py.truthy (email_main extraction))
          then set_email_main extraction (Some first)
          else extraction
      | [] => extraction
      end in
  let evidence :=
    if Py.some emails then PageContent.url page :: evidence else evidence in
  (extraction, evidence).

(** Phone / Fax. *)
Definition scan_phone_fax (acc : Acc) (soup : Soup) (page : PageContent.t) : Acc :=
  let '(extraction, evidence) := acc in
  let '(phone, fax) := _extract_phone_fax soup in
  let '(extraction, evidence) :=
    if Py.truthy phone && negb (Py.truthy (phone_main extraction))
    then (set_phone_main extraction phone, PageContent.url page :: evidence)
    else (extraction, evidence) in
  let '(extraction, evidence) :=
    if Py.truthy fax && negb (Py.truthy (fax_main extraction))
    then (set_fax_main extraction fax, PageContent.url page :: evidence)
    else (extraction, evidence) in
  (extraction, evidence).

(** The body of [for key, value in sns_links.items()]. *)
Definition merge_sns_item (acc : Acc) (item : string * string) : Acc :=
  let '(extraction, evidence) := acc in
  let '(key, value) := item in
  if negb (Py.mem (sns extraction) key)
  then (set_sns extraction (Py.set (sns extraction) key value), value :: evidence)
  else (extraction, evidence).

(** SNS. *)
Definition scan_sns (acc : Acc) (soup : Soup) (page : PageContent.t) : Acc :=
  let sns_links := _extract_sns_links soup (PageContent.url page) in
  fold_left merge_sns_item sns_links acc.

(** The body of [for page in pages]. *)
Definition scan_page (acc : Acc) (page : PageContent.t) : Acc :=
  let soup := BeautifulSoup (PageContent.html page) in
  let acc := scan_contact_link acc soup page in
  let acc := scan_emails acc soup page in
  let acc := scan_phone_fax acc soup page in
  let acc := scan_sns acc soup page in
  acc.

(** What follows the loop: the guesses, then sorting. *)
Definition finish (acc : Acc) (domain : string) : ExtractionResult.t :=
  let '(extraction, evidence) := acc in
  let '(extraction, evidence) :=
    if negb (Py.some (email_role_based extraction)) then
      let guessed := _guess_role_emails domain in
      let extraction :=
        set_email_guessed extraction (email_guessed extraction ++ guessed) in
      let extraction :=
        if Py.some guessed && negb (Py.truthy (email_main extraction))
        then set_email_main extraction (hd_error guessed)
        else extraction in
      (extraction, guessed ++ evidence)
    else (extraction, evidence) in
  let extraction :=
    set_email_role_based extraction (Py.sorted_set (email_role_based extraction)) in
  let extraction :=
    set_email_guessed extraction (Py.sorted_set (email_guessed extraction)) in
  let extraction :=
    set_evidence_sources extraction (Py.sorted_set evidence) in
  extraction.

Definition extract_contact_info (pages : list PageContent.t) (base_url : string)
  : ExtractionResult.t :=
  let extraction := ExtractionResult.empty in
  let domain := netloc (urlparse base_url) in
  let evidence : list string := [] in
  finish (fold_left scan_page pages (extraction, evidence)) domain.

(** *** Vocabulary of the properties *)

(** What each part of [scan_page] leaves alone. *)
Definition email_part (e : ExtractionResult.t) :=
  (email_main e, email_role_based e, email_guessed e).

Definition phone_part (e : ExtractionResult.t) := (phone_main e, fax_main e).

(** The last element of a list, starting from [init]. *)
Definition last_or {A} (init : option A) (l : list A) : option A :=
  fold_left (fun _ x => Some x) l init.

Definition last_error {A} (l : list A) : option A := last_or None l.

(** The absolute URLs of the anchors of [page] that match [patterns], in
    document order. *)
Definition sns_urls (patterns : list string) (page : PageContent.t) : list string :=
  filter (sns_match patterns)
         (map (fun a => urljoin (PageContent.url page) (href a))
              (anchors (BeautifulSoup (PageContent.html page)))).

(** First match of the whole crawl: pages in the order supplied, anchors
    in document order. *)
Definition sns_first_seen (patterns : list string) (pages : list PageContent.t)
  : option string :=
  hd_error (flat_map (sns_urls patterns) pages).

(** Last match of the first page that has a match. *)
Definition sns_first_page_last_anchor (patterns : list string)
           (pages : list PageContent.t) : option string :=
  match find (fun page => Py.some (sns_urls patterns page)) pages with
  | Some page => last_error (sns_urls patterns page)
  | None => None
  end.

(** The stored entry of every platform is the first match of the crawl. *)
Definition sns_first_match_wins : Prop :=
  forall (pages : list PageContent.t) (base_url key : string) (patterns : list string),
    In (key, patterns) SNS_PATTERNS ->
    Py.get (sns (extract_contact_info pages base_url)) key
    = sns_first_seen patterns pages.

(** On a page reached with [email_main] unset, [email_main] becomes the
    first role-based address in scan order, else the first address in
    scan order. *)
Definition email_main_first_in_scan_order : Prop :=
  forall (acc : Acc) (page : PageContent.t),
    let soup := BeautifulSoup (PageContent.html page) in
    Py.truthy (email_main (fst acc)) = false ->
    email_main (fst (scan_page acc page))
    = match filter _is_role_email (scanned_emails soup) with
      | first :: _ => Some first
      | [] =>
          match scanned_emails soup with
          | first :: _ => Some first
          | [] => email_main (fst acc)
          end
      end.

(** A page that yields an email, a phone number or a fax number. *)
Definition page_gave_fact (page : PageContent.t) : bool :=
  let soup := BeautifulSoup (PageContent.html page) in
  Py.some (_extract_emails_from_page soup)
  || Py.truthy (fst (_extract_phone_fax soup))
  || Py.truthy (snd (_extract_phone_fax soup)).

(** [e] is a URL tied to an extracted fact: the contact-form link, the
    URL of a page that yielded an email, phone or fax, or a stored social
    link. *)
Definition fact_url (pages : list PageContent.t) (result : ExtractionResult.t)
           (e : string) : Prop :=
  contact_form_url result = Some e
  \/ (exists page, In page pages /\ PageContent.url page = e
                   /\ page_gave_fact page = true)
  \/ (exists key, Py.get (sns result) key = Some e).

(** Every evidence entry is such a URL. *)
Definition evidence_only_fact_urls : Prop :=
  forall (pages : list PageContent.t) (base_url e : string),
    In e (evidence_sources (extract_contact_info pages base_url)) ->
    fact_url pages (extract_contact_info pages base_url) e.

(** Invariant of the page loop for the evidence set. *)
Definition evidence_justified (pages : list PageContent.t) (acc : Acc) : Prop :=
  (forall l, contact_form_url (fst acc) = Some l -> Py.nonempty l = true)
  /\ forall e, In e (snd acc) -> fact_url pages (fst acc) e.







(** When no page yields an email, the guesses are the five role addresses
    at the registrable domain of the official URL and [email_main] is the
    first of them. *)
Definition guesses_against_registrable_domain : Prop :=
  forall (pages : list PageContent.t) (base_url : string),
    Forall (fun page =>
              _extract_emails_from_page (BeautifulSoup (PageContent.html page)) = [])
           pages ->
    let domain := pick_best_domain base_url in
    let result := extract_contact_info pages base_url in
    (forall x, In x (email_guessed result)
               <-> In x [("info@" ++ domain)%string; ("contact@" ++ domain)%string;
                         ("sales@" ++ domain)%string; ("support@" ++ domain)%string;
                         ("inquiry@" ++ domain)%string])
    /\ email_main result = Some ("info@" ++ domain)%string.

End WithLib.
End Extractor.

(* ------------------------------------------------------------------ *)
(** ** A small site to run the engine on

    [Demo.lib] implements [PyLib] for plain ASCII input: absolute
    [http(s)] URLs without port or user info, links that are absolute,
    rooted at the host or [mailto:], addresses and phone numbers set off by
    spaces, and Japanese phone numbers.  Parsed documents are listed
    beside their markup.  On the pages and URLs below it returns what the
    Python libraries return. *)

Module Demo.

Definition lower_char (c : ascii) : ascii :=
  if Py.between "A" "Z" c then ascii_of_N (N_of_ascii c + 32) else c.

Definition upper_char (c : ascii) : ascii :=
  if Py.between "a" "z" c then ascii_of_N (N_of_ascii c - 32) else c.

Fixpoint map_chars (f : ascii -> ascii) (s : string) : string :=
  match s with
  | EmptyString => EmptyString
  | String c rest => String (f c) (map_chars f rest)
  end.

Definition is_space (c : ascii) : bool :=
  Ascii.eqb c " " || N.leb 9 (N_of_ascii c) && N.leb (N_of_ascii c) 13.

Fixpoint lstrip (s : string) : string :=
  match s with
  | EmptyString => EmptyString
  | String c rest => if is_space c then lstrip rest else s
  end.

Fixpoint rstrip (s : string) : string :=
  match s with
  | EmptyString => EmptyString
  | String c rest =>
      match rstrip rest with
      | EmptyString => if is_space c then EmptyString else String c EmptyString
      | kept => String c kept
      end
  end.

Definition strip (s : string) : string := rstrip (lstrip s).

(** The characters before the first one that satisfies [stop], and the
    rest. *)
Fixpoint take_until (stop : ascii -> bool) (s : string) : string * string :=
  match s with
  | EmptyString => (EmptyString, EmptyString)
  | String c rest =>
      if stop c then (EmptyString, s)
      else let '(taken, rest) := take_until stop rest in (String c taken, rest)
  end.

Fixpoint drop (n : nat) (s : string) : string :=
  match n, s with
  | S n, String _ rest => drop n rest
  | _, _ => s
  end.

(** The scheme of an absolute URL and what follows the two slashes. *)
Fixpoint split_scheme (s : string) : option (string * string) :=
  match s with
  | EmptyString => None
  | String c rest =>
      if String.prefix "://" s then Some (EmptyString, drop 3 s)
      else match split_scheme rest with
           | Some (sch, after) => Some (String c sch, after)
           | None => None
           end
  end.

Definition one_of (chars : string) (c : ascii) : bool :=
  Py.str_in (String c EmptyString) chars.

Definition parse_url (url : string) : ParseResult :=
  let '(sch, net, rest) :=
    match split_scheme url with
    | Some (sch, after) =>
        let '(net, rest) := take_until (one_of "/?#") after in
        (map_chars lower_char sch, net, rest)
    | None => (EmptyString, EmptyString, url)
    end in
  let '(pth, rest) := take_until (one_of "?#") rest in
  let '(qry, frag) := take_until (one_of "#") (if String.prefix "?" rest then drop 1 rest else rest) in
  {| scheme := sch; netloc := net; path := pth; params := EmptyString;
     query := qry; fragment := drop 1 frag |}.

Definition unparse_url (p : ParseResult) : string :=
  ((if Py.nonempty (scheme p) then scheme p ++ "://" else EmptyString)
   ++ netloc p ++ path p
   ++ (if Py.nonempty (query p) then "?" ++ query p else EmptyString)
   ++ (if Py.nonempty (fragment p) then "#" ++ fragment p else EmptyString))%string.

Definition host (p : ParseResult) : option string :=
  if Py.nonempty (netloc p) then Some (map_chars lower_char (netloc p)) else None.

Definition join_url (base url : string) : string :=
  match split_scheme url with
  | Some _ => url
  | None =>
      if String.prefix "mailto:" url then url
      else if String.prefix "/" url
      then (scheme (parse_url base) ++ "://" ++ netloc (parse_url base) ++ url)%string
      else (base ++ "/" ++ url)%string
  end.

Definition is_alpha (c : ascii) : bool :=
  Py.between "a" "z" c || Py.between "A" "Z" c.

Definition is_alnum (c : ascii) : bool := is_alpha c || Py.is_digit c.

Fixpoint all_chars (f : ascii -> bool) (s : string) : bool :=
  match s with
  | EmptyString => true
  | String c rest => f c && all_chars f rest
  end.

(** What stands before and after the last dot. *)
Fixpoint rsplit_dot (s : string) : option (string * string) :=
  match s with
  | EmptyString => None
  | String c rest =>
      match rsplit_dot rest with
      | Some (before, after) => Some (String c before, after)
      | None => if Ascii.eqb c "." then Some (EmptyString, rest) else None
      end
  end.

(** A full match of [EMAIL_PATTERN]: a local part, an at sign, a domain
    whose last label has at least two letters. *)
Definition email_fullmatch (s : string) : bool :=
  let local_part := Py.before_first "@" s in
  let domain_part := Py.after_first "@" s in
  Py.str_in "@" s
  && Py.nonempty local_part
  && all_chars (fun c => is_alnum c || one_of "._%+-" c) local_part
  && all_chars (fun c => is_alnum c || one_of ".-" c) domain_part
  && match rsplit_dot domain_part with
     | Some (before, tld) =>
         Py.nonempty before && all_chars is_alpha tld
         && (2 <=? String.length tld)%nat
     | None => false
     end.

(** The space-separated words of a text. *)
Fixpoint words_from (current : string) (s : string) : list string :=
  match s with
  | EmptyString => if Py.nonempty current then [current] else []
  | String c rest =>
      if is_space c
      then (if Py.nonempty current then [current] else []) ++ words_from EmptyString rest
      else words_from (current ++ String c EmptyString) rest
  end.

Definition words (s : string) : list string := words_from EmptyString s.

Definition email_findall (text : string) : list string :=
  filter email_fullmatch (words text).

(** A word of five to thirteen digits with hyphens that starts with a
    zero. *)
Definition looks_like_phone (w : string) : bool :=
  String.prefix "0" w
  && all_chars (fun c => Py.is_digit c || Ascii.eqb c "-") w
  && (5 <=? String.length (Py.keep Py.is_digit w))%nat
  && (String.length (Py.keep Py.is_digit w) <=? 13)%nat.

Definition phone_findall (text : string) : list string :=
  filter looks_like_phone (words text).

(** A phone number: country code and national number. *)
Definition Number : Type := string * string.

Definition parse_number (digits : string) (region : option string)
  : option Number :=
  if String.prefix "+81" digits then Some ("81", drop 3 digits)
  else if String.prefix "+" digits then None
  else match region with
       | Some "JP" =>
           if (String.length digits <? 2)%nat then None
           else Some ("81", if String.prefix "0" digits then drop 1 digits else digits)
       | _ => None
       end.

Definition valid_number (p : Number) : bool :=
  let '(code, national) := p in
  String.eqb code "81"
  && all_chars Py.is_digit national
  && ((String.length national =? 9)%nat || (String.length national =? 10)%nat).

Definition format_number (p : Number) : string :=
  let '(code, national) := p in ("+" ++ code ++ national)%string.

Definition lookup {A} (table : list (string * A)) (key : string) : option A :=
  match find (fun entry => String.eqb (fst entry) key) table with
  | Some entry => Some (snd entry)
  | None => None
  end.

Definition no_soup : Soup := {| anchors := []; stripped_strings := [] |}.

Definition no_extract : ExtractResult :=
  {| subdomain := EmptyString; domain := EmptyString; suffix := EmptyString |}.

(** The library, given the parsed form of each document and the public
    suffix split of each URL that is asked for. *)
Definition lib (documents : list (string * Soup))
           (domains : list (string * ExtractResult)) : PyLib :=
  {| str_lower := map_chars lower_char;
     str_upper := map_chars upper_char;
     str_strip := strip;
     urlparse := parse_url;
     geturl := unparse_url;
     hostname := host;
     urljoin := join_url;
     BeautifulSoup := fun html =>
       match lookup documents html with Some soup => soup | None => no_soup end;
     EMAIL_PATTERN_findall := email_findall;
     EMAIL_PATTERN_fullmatch := email_fullmatch;
     PHONE_PATTERN_findall := phone_findall;
     re_search_ignorecase := fun literal text =>
       Py.str_in (map_chars lower_char literal) (map_chars lower_char text);
     PhoneNumber := Number;
     phonenumbers_parse := parse_number;
     is_valid_number := valid_number;
     format_number_E164 := format_number;
     tldextract_extract := fun url =>
       match lookup domains url with Some e => e | None => no_extract end |}.

(** A fetcher over a fixed set of pages: a URL that is listed is fetched,
    any other fails; the world does not change. *)
Definition site (pages : list (string * PageContent.t)) : Fetcher unit :=
  fun url w => (lookup pages url, w).

End Demo.

(* ------------------------------------------------------------------ *)
(** ** Example inputs *)

Module Example.

Definition home_html : string :=
  "<a href='/about'>about us</a> <a href='/support'>contact us</a> <a href='/contact'>Mail</a>".

Definition home_soup : Soup :=
  {| anchors := [ {| href := "/about"; get_text := "about us" |};
                  {| href := "/support"; get_text := "contact us" |};
                  {| href := "/contact"; get_text := "Mail" |} ];
     stripped_strings := ["about us"; "contact us"; "Mail"] |}.

Definition plain_html : string := "<p>Welcome</p>".

Definition plain_soup : Soup :=
  {| anchors := []; stripped_strings := ["Welcome"] |}.

Definition sns_html : string :=
  "<a href='https://www.linkedin.com/company/example'>LinkedIn</a> <a href='https://www.linkedin.com/in/ceo'>CEO</a>".

Definition sns_soup : Soup :=
  {| anchors := [ {| href := "https://www.linkedin.com/company/example";
                     get_text := "LinkedIn" |};
                  {| href := "https://www.linkedin.com/in/ceo";
                     get_text := "CEO" |} ];
     stripped_strings := ["LinkedIn"; "CEO"] |}.

Definition mail_html : string :=
  "<a href='mailto:sales@example.co.jp'>Sales</a> <a href='mailto:info@example.co.jp'>Info</a>".

Definition mail_soup : Soup :=
  {| anchors := [ {| href := "mailto:sales@example.co.jp"; get_text := "Sales" |};
                  {| href := "mailto:info@example.co.jp"; get_text := "Info" |} ];
     stripped_strings := ["Sales"; "Info"] |}.

Definition lib : PyLib :=
  Demo.lib
    [(home_html, home_soup); (plain_html, plain_soup);
     (sns_html, sns_soup); (mail_html, mail_soup)]
    [("https://www.example.co.jp",
      {| subdomain := "www"; domain := "example"; suffix := "co.jp" |})].

Definition page (url html : string) (soup : Soup) : PageContent.t :=
  PageContent.mk url html (soup_text soup).

Definition home_page : PageContent.t :=
  page "https://example.co.jp" home_html home_soup.

Definition sns_page : PageContent.t :=
  page "https://www.example.co.jp" sns_html sns_soup.

Definition mail_page : PageContent.t :=
  page "https://www.example.co.jp" mail_html mail_soup.

Definition plain_page : PageContent.t :=
  page "https://www.example.co.jp" plain_html plain_soup.

Definition gov_page : PageContent.t :=
  page "https://www.example.go.jp" plain_html plain_soup.

(** The site of the crawl examples: a home page with three links, and
    the three pages they lead to. *)
Definition web : Fetcher unit :=
  Demo.site
    [("https://example.co.jp", home_page);
     ("https://example.co.jp/about",
      page "https://example.co.jp/about" plain_html plain_soup);
     ("https://example.co.jp/support",
      page "https://example.co.jp/support" plain_html plain_soup);
     ("https://example.co.jp/contact",
      page "https://example.co.jp/contact" plain_html plain_soup);
     ("https://www.example.go.jp", gov_page)].

Definition settings (max_pages : Z) : Settings.t :=
  Settings.mk max_pages 2.

(** The state of the crawl of [web] after its first iteration. *)
Definition after_home : Crawler.State unit :=
  Crawler.mkState
    [("https://example.co.jp/contact", 1);
     ("https://example.co.jp/about", 1);
     ("https://example.co.jp/support", 1)]
    ["https://example.co.jp"] [home_page] tt.

(** The pages of [tests/test_site_selector.py]. *)
Definition search_web : Fetcher unit :=
  Demo.site
    [("https://example.co.jp",
      PageContent.mk "https://example.co.jp"
        "<html><head><title>Example株式会社 | 公式サイト</title></head><body>会社概要</body></html>"
        "Example株式会社 公式サイト 会社概要");
     ("https://other.com",
      PageContent.mk "https://other.com"
        "<html><body>Other site</body></html>" "Other site")].

(** The two pages of [tests/test_site_scraper.py], with single quotes. *)
Definition test_home_html : string :=
  "<html><body><a href='/contact'>お問い合わせはこちら</a><p>TEL : 03-1234-5678</p><p>FAX：03-9876-5432</p><a href='mailto:info@example.co.jp'>info@example.co.jp</a><a href='https://www.linkedin.com/company/example'>LinkedIn</a><a href='https://x.com/example'>X</a></body></html>".

Definition test_home_soup : Soup :=
  {| anchors :=
       [ {| href := "/contact"; get_text := "お問い合わせはこちら" |};
         {| href := "mailto:info@example.co.jp"; get_text := "info@example.co.jp" |};
         {| href := "https://www.linkedin.com/company/example"; get_text := "LinkedIn" |};
         {| href := "https://x.com/example"; get_text := "X" |} ];
     stripped_strings :=
       ["お問い合わせはこちら"; "TEL : 03-1234-5678"; "FAX：03-9876-5432";
        "info@example.co.jp"; "LinkedIn"; "X"] |}.

Definition test_contact_html : string :=
  "<html><body><form action='/submit'>フォーム</form><p>メール: support@example.co.jp</p></body></html>".

Definition test_contact_soup : Soup :=
  {| anchors := [];
     stripped_strings := ["フォーム"; "メール: support@example.co.jp"] |}.

Definition test_lib : PyLib :=
  Demo.lib [(test_home_html, test_home_soup);
            (test_contact_html, test_contact_soup)] [].

Definition test_pages : list PageContent.t :=
  [page "https://example.co.jp" test_home_html test_home_soup;
   page "https://example.co.jp/contact" test_contact_html test_contact_soup].

End Example.

(* ------------------------------------------------------------------ *)
(** ** Vocabulary of the further properties *)

Module More.

(** Every character of a string satisfies [f]. *)
Fixpoint all_chars (f : ascii -> bool) (s : string) : bool :=
  match s with
  | EmptyString => true
  | String c rest => f c && all_chars f rest
  end.

(** The pages of the successful calls of a call log, in call order. *)
Definition successes (calls : Log) : list PageContent.t :=
  flat_map (fun call => match snd call with Some page => [page] | None => [] end)
           calls.

(** An [Optional[str]] read through its truthiness. *)
Definition truthy_opt (o : option string) : option string :=
  if Py.truthy o then o else None.

(** [if new and not old: old = new], as an expression. *)
Definition once (new old : option string) : option string :=
  if Py.truthy new && negb (Py.truthy old) then new else old.

(** The first value that [f] yields along a list. *)
Fixpoint first_some {A B} (f : A -> option B) (l : list A) : option B :=
  match l with
  | [] => None
  | x :: rest =>
      match f x with
      | Some y => Some y
      | None => first_some f rest
      end
  end.

Section WithLib.
Context `{PyLib}.

(** A candidate that [select] may return, given the candidates supplied
    and the fetch calls made: it pairs one of the candidates, whose URL is
    not empty, with a page that a call for that URL returned, and holds
    that page's score. *)
Definition well_formed_pick (normalized_name : string)
           (candidates : list SearchResult.t) (calls : Log)
           (c : Selector.SiteCandidate) : Prop :=
  In (Selector.search_result c) candidates
  /\ Py.nonempty (SearchResult.url (Selector.search_result c)) = true
  /\ exists page,
      Selector.page c = Some page
      /\ Selector.score c = Selector._score_candidate normalized_name page
      /\ In (SearchResult.url (Selector.search_result c), Some page) calls.


(** What one page offers for each assign-once field. *)
Definition page_contact_link (page : PageContent.t) : option string :=
  truthy_opt (Extractor._find_contact_link
                (BeautifulSoup (PageContent.html page)) (PageContent.url page)).

Definition page_phone (page : PageContent.t) : option string :=
  truthy_opt (fst (Extractor._extract_phone_fax (BeautifulSoup (PageContent.html page)))).

Definition page_fax (page : PageContent.t) : option string :=
  truthy_opt (snd (Extractor._extract_phone_fax (BeautifulSoup (PageContent.html page)))).

(** The fax test of [_extract_phone_fax] on one text fragment. *)
Definition has_fax_marker (snippet : string) : bool :=
  Py.str_in "FAX" (str_upper snippet) || Py.str_in "ＦＡＸ" snippet.

(** The text fragments that [_extract_phone_fax] scans. *)
Definition text_snippets (soup : Soup) : list string :=
  map str_strip (filter Py.nonempty (stripped_strings soup)).

(** An address was collected on one of the pages. *)
Definition scanned_on (pages : list PageContent.t) (email : string) : Prop :=
  exists page, In page pages
               /\ In email (Extractor.scanned_emails
                              (BeautifulSoup (PageContent.html page))).

(** Where the addresses of a result come from: every role-based address
    passes the role test and was collected on a page; every guessed address
    is one of the guesses for the network location of [base_url]; and the
    main address was collected on a page or is one of the guesses kept. *)
Definition emails_accounted_for (pages : list PageContent.t) (base_url : string)
           (e : ExtractionResult.t) : Prop :=
  Forall (fun x => Extractor._is_role_email x = true /\ scanned_on pages x)
         (ExtractionResult.email_role_based e)
  /\ Forall (fun x => In x (Extractor._guess_role_emails (netloc (urlparse base_url))))
            (ExtractionResult.email_guessed e)
  /\ match ExtractionResult.email_main e with
     | Some m => scanned_on pages m \/ In m (ExtractionResult.email_guessed e)
     | None => True
     end.

(** What the loop over the pages maintains about the addresses. *)
Definition emails_inv (pages : list PageContent.t) (acc : Extractor.Acc) : Prop :=
  ExtractionResult.email_guessed (fst acc) = []
  /\ Forall (fun x => Extractor._is_role_email x = true /\ scanned_on pages x)
            (ExtractionResult.email_role_based (fst acc))
  /\ match ExtractionResult.email_main (fst acc) with
     | Some m => scanned_on pages m
     | None => True
     end.

(** An entry of the SNS dictionary is accounted for by a page: its key is
    a platform of the table and its value the absolute URL of an anchor of
    the page that matches the platform. *)
Definition sns_entry_from (pages : list PageContent.t) (entry : string * string)
  : Prop :=
  exists patterns page,
    In (fst entry, patterns) SNS_PATTERNS
    /\ In page pages
    /\ In (snd entry) (Extractor.sns_urls patterns page).

(** Invariants of a crawl of [base_url] against the recording fetcher:
    the pages collected are those of the successful calls; every URL
    queued or fetched is on the site. *)
Definition results_are_successes {World} (s : Crawler.State (World * Log)) : Prop :=
  Crawler.results s = successes (snd (Crawler.world s)).


(** The depths a queue entry may have under [settings]. *)
Definition depth_in_range (settings : Settings.t) (entry : string * Z) : Prop :=
  0 <= snd entry <= Z.max 0 (Settings.crawler_max_depth settings).

(** The states of a crawl that follows no link: before and after the
    start URL is taken. *)
Definition start_only {World} (base_url : string)
           (s : Crawler.State (World * Log)) : Prop :=
  (Crawler.queue s = [(base_url, 0)] /\ Crawler.visited s = []
   /\ Crawler.results s = [] /\ snd (Crawler.world s) = [])
  \/ (Crawler.queue s = []
      /\ (length (Crawler.results s) <= 1)%nat
      /\ (snd (Crawler.world s) = []
          \/ exists r, snd (Crawler.world s) = [(base_url, r)])).

End WithLib.
End More.

(* ------------------------------------------------------------------ *)
(** ** The sheet row and its update payload ([models.py]) *)

(** A [dict] with [str] keys and values of any type, in insertion order. *)
Module Dict.

Definition t (V : Type) : Type := list (string * V).

Fixpoint get {V} (d : t V) (k : string) : option V :=
  match d with
  | [] => None
  | (k', v) :: rest => if String.eqb k' k then Some v else get rest k
  end.

(** [d[k] = v]: overwrite in place, or append a new key. *)
Fixpoint set {V} (d : t V) (k : string) (v : V) : t V :=
  match d with
  | [] => [(k, v)]
  | (k', v') :: rest =>
      if String.eqb k' k then (k', v) :: rest else (k', v') :: set rest k v
  end.

(** [k in d] *)
Definition mem {V} (d : t V) (k : string) : bool :=
  match get d k with None => false | Some _ => true end.

(** [d.update(other)] *)
Definition update {V} (d other : t V) : t V :=
  fold_left (fun d item => set d (fst item) (snd item)) other d.

Definition keys {V} (d : t V) : list string := map fst d.

End Dict.

Definition SHEET_COLUMNS : Dict.t string :=
  [("company_name", "A");
   ("resolved_domain", "B");
   ("website_url", "C");
   ("contact_form_url", "D");
   ("email_main", "E");
   ("email_role_based", "F");
   ("email_guessed", "G");
   ("phone_main", "H");
   ("fax_main", "I");
   ("sns_linkedin", "J");
   ("sns_x", "K");
   ("sns_instagram", "L");
   ("sns_facebook", "M");
   ("evidence_sources", "N");
   ("business_summary", "O");
   ("business_bullets", "P");
   ("recent_news", "Q");
   ("competitors_hint", "R");
   ("last_checked_at", "S");
   ("lock_manual_override", "T");
   ("status", "U");
   ("error_detail", "V")].

(** [value or EmptyString] for an [Optional[str]]. *)
Definition or_empty (value : option string) : string :=
  match value with
  | Some s => s
  | None => EmptyString
  end.

Module CompanyRow.
Record t := mk {
  row_index : Z;
  company_name : string;
  resolved_domain : option string;
  website_url : option string;
  contact_form_url : option string;
  email_main : option string;
  email_role_based : option string;
  email_guessed : option string;
  phone_main : option string;
  fax_main : option string;
  sns_linkedin : option string;
  sns_x : option string;
  sns_instagram : option string;
  sns_facebook : option string;
  evidence_sources : option string;
  business_summary : option string;
  business_bullets : option string;
  recent_news : option string;
  competitors_hint : option string;
  last_checked_at : option string;
  lock_manual_override : bool;
  status : option string;
  error_detail : option string }.

(** The body of the loop [for field, value in updates.items()]. *)
Definition payload_item (payload : Dict.t string) (item : string * option string)
  : Dict.t string :=
  let '(field, value) := item in
  if negb (Dict.mem SHEET_COLUMNS field) then payload
  else Dict.set payload field (or_empty value).

(** [to_update_payload]; the method reads no field of the row.  [now] is
    the clock reading [datetime.now(timezone.utc).isoformat()]. *)
Definition to_update_payload (now : string) (updates : Dict.t (option string))
  : Dict.t string :=
  let payload := fold_left payload_item updates [] in
  if Dict.mem payload "last_checked_at" then payload
  else Dict.set payload "last_checked_at" now.

End CompanyRow.

(** An element of [ReportResult.recent_news]: a dictionary with the keys
    [date], [headline] and [url]. *)
Module NewsItem.
Record t := mk { date : string; headline : string; url : string }.
End NewsItem.

Module ReportResult.
Record t := mk {
  business_summary : string;
  business_bullets : list string;
  recent_news : list NewsItem.t;
  competitors_hint : list string }.
End ReportResult.

(* ------------------------------------------------------------------ *)
(** ** SheetsClient ([google_sheets.py]) *)

Module Sheets.

(** An element of the [data] of a [batchUpdate] body: the range
    [f"{sheet}!{column}{row_number}"], kept in its parts, and the single
    cell value. *)
Record CellUpdate := {
  sheet : string; column : string; row_number : Z; value : string }.

(** What [update_row] does: it returns without a request, sends one
    [batchUpdate] with the given [data], or raises [KeyError]. *)
Inductive Request :=
| NoRequest
| BatchUpdate (data : list CellUpdate)
| KeyError.

Definition writable (k : string) : bool :=
  Dict.mem SHEET_COLUMNS k && negb (String.eqb k "lock_manual_override").

(** The loop [for field, value in filtered.items()]. *)
Fixpoint cell_updates (main_sheet_name : string) (row_number : Z)
         (filtered : Dict.t (option string)) : option (list CellUpdate) :=
  match filtered with
  | [] => Some []
  | (field, value) :: rest =>
      match Dict.get SHEET_COLUMNS field with
      | None => None
      | Some column =>
          match cell_updates main_sheet_name row_number rest with
          | None => None
          | Some data =>
              Some ({| sheet := main_sheet_name; column := column;
                       row_number := row_number; value := or_empty value |}
                      :: data)
          end
      end
  end.

(** [update_row], up to the request it sends. *)
Definition update_row (main_sheet_name : string) (row : CompanyRow.t)
           (updates : Dict.t (option string)) : Request :=
  let filtered := filter (fun item => writable (fst item)) updates in
  if negb (Py.some filtered) then NoRequest
  else
    let row_number := CompanyRow.row_index row + 1 in
    match cell_updates main_sheet_name row_number filtered with
    | Some data => BatchUpdate data
    | None => KeyError
    end.

(** A payload seen as the [updates] argument of [update_row]. *)
Definition as_updates (payload : Dict.t string) : Dict.t (option string) :=
  map (fun item => (fst item, Some (snd item))) payload.

(** The cell a request writes in [column], if it writes one. *)
Definition written (request : Request) (col : string) : option string :=
  match request with
  | BatchUpdate data =>
      option_map value (find (fun cell => String.eqb (column cell) col) data)
  | _ => None
  end.

End Sheets.

(* ------------------------------------------------------------------ *)
(** ** ReportGenerator ([reporting.py]) *)

Module Reporting.

(** An element of [data["recent_news"]], read with [item.get]. *)
Record RawNews := {
  date : option string; headline : option string; url : option string }.

(** The decoded JSON object of the response, read with [data.get] and the
    defaults [EmptyString] and [[]]. *)
Record ReportData := {
  business_summary : string;
  business_bullets : list string;
  recent_news : list RawNews;
  competitors_hint : list string }.

Section WithLib.
Context `{PyLib}.

(** The body of the loop over [data.get("recent_news", [])[:3]]. *)
Definition news_item (item : RawNews) : list NewsItem.t :=
  let date := str_strip (or_empty (date item)) in
  let headline := str_strip (or_empty (headline item)) in
  let url := str_strip (or_empty (url item)) in
  if Py.nonempty date && Py.nonempty headline && Py.nonempty url
  then [NewsItem.mk date headline url]
  else [].

(** [generate], from the decoded response on. *)
Definition generate (data : ReportData) : ReportResult.t :=
  let summary := str_strip (business_summary data) in
  let bullets := map str_strip (filter Py.nonempty (business_bullets data)) in
  let news_items := flat_map news_item (firstn 3 (recent_news data)) in
  let competitors := map str_strip (filter Py.nonempty (competitors_hint data)) in
  ReportResult.mk summary (firstn 5 bullets) news_items (firstn 5 competitors).

(** A news item of a report is complete: no field is empty. *)
Definition complete (item : NewsItem.t) : Prop :=
  Py.nonempty (NewsItem.date item) = true
  /\ Py.nonempty (NewsItem.headline item) = true
  /\ Py.nonempty (NewsItem.url item) = true.

End WithLib.
End Reporting.

(* ------------------------------------------------------------------ *)
(** ** LeadProcessor ([processor.py]) *)

Module Processor.

Definition STATUS_PENDING : string := "pending".
Definition STATUS_OK : string := "ok".
Definition STATUS_REVIEW : string := "needs_review".
Definition STATUS_ERROR : string := "error".

Definition newline : string := String (ascii_of_nat 10) EmptyString.

(** [sep.join(l) if l else None] *)
Definition join_or_none (sep : string) (l : list string) : option string :=
  if Py.some l then Some (String.concat sep l) else None.

(** [f"{item['date']}|{item['headline']}|{item['url']}"] *)
Definition news_line (item : NewsItem.t) : string :=
  (NewsItem.date item ++ "|" ++ NewsItem.headline item ++ "|" ++ NewsItem.url item)%string.

(** [_prepare_updates]; [report] is [None] or a [ReportResult], which is
    always truthy. *)
Definition _prepare_updates (now : string) (official_url resolved_domain : string)
           (extraction : ExtractionResult.t) (report : option ReportResult.t)
  : Dict.t string :=
  let evidence_sources : list string := [] in
  let evidence_sources :=
    if Py.some (ExtractionResult.evidence_sources extraction)
    then evidence_sources ++ ExtractionResult.evidence_sources extraction
    else evidence_sources in
  let evidence_sources := evidence_sources ++ [official_url] in
  let evidence_str := String.concat "|" (Py.sorted_set evidence_sources) in
  let updates : Dict.t (option string) :=
    [("resolved_domain", Some resolved_domain);
     ("website_url", Some official_url);
     ("contact_form_url", ExtractionResult.contact_form_url extraction);
     ("email_main", ExtractionResult.email_main extraction);
     ("email_role_based",
      join_or_none ";" (ExtractionResult.email_role_based extraction));
     ("email_guessed",
      join_or_none ";" (ExtractionResult.email_guessed extraction));
     ("phone_main", ExtractionResult.phone_main extraction);
     ("fax_main", ExtractionResult.fax_main extraction);
     ("sns_linkedin", Py.get (ExtractionResult.sns extraction) "sns_linkedin");
     ("sns_x", Py.get (ExtractionResult.sns extraction) "sns_x");
     ("sns_instagram", Py.get (ExtractionResult.sns extraction) "sns_instagram");
     ("sns_facebook", Py.get (ExtractionResult.sns extraction) "sns_facebook");
     ("evidence_sources", Some evidence_str);
     ("status", Some STATUS_OK);
     ("error_detail", None)] in
  let review_reasons : list string := [] in
  let '(updates, review_reasons) :=
    match report with
    | Some report =>
        (Dict.update updates
           [("business_summary", Some (ReportResult.business_summary report));
            ("business_bullets",
             Some (String.concat ";" (ReportResult.business_bullets report)));
            ("recent_news",
             if Py.some (ReportResult.recent_news report)
             then Some (String.concat newline
                          (map news_line (ReportResult.recent_news report)))
             else None);
            ("competitors_hint",
             join_or_none ";" (ReportResult.competitors_hint report))],
         review_reasons)
    | None =>
        (updates, review_reasons ++ ["レポート未生成: OPENAI_API_KEY 未設定"])
    end in
  let review_reasons :=
    if negb (Py.truthy (ExtractionResult.email_main extraction))
    then review_reasons ++ ["メールアドレス未取得"]
    else review_reasons in
  let review_reasons :=
    if negb (Py.truthy (ExtractionResult.phone_main extraction))
    then review_reasons ++ ["電話番号未取得"]
    else review_reasons in
  let updates :=
    if Py.some review_reasons then
      let updates := Dict.set updates "status" (Some STATUS_REVIEW) in
      Dict.set updates "error_detail" (Some (String.concat "; " review_reasons))
    else updates in
  CompanyRow.to_update_payload now updates.

(** The three tests of [process_sheet] that end in [continue]. *)
Definition skips (force : bool) (row : CompanyRow.t) : bool :=
  if negb (Py.nonempty (CompanyRow.company_name row)) then true
  else if CompanyRow.lock_manual_override row then true
  else if negb force
          && Py.truthy (CompanyRow.status row)
          && negb (Py.elem (or_empty (CompanyRow.status row))
                           [STATUS_PENDING; STATUS_REVIEW; STATUS_ERROR])
  then true
  else false.

(** [limit and len(outcomes) >= limit] *)
Definition limit_reached {Outcome} (limit : option Z) (outcomes : list Outcome)
  : bool :=
  match limit with
  | Some n => negb (n =? 0) && (Z.of_nat (length outcomes) >=? n)
  | None => false
  end.

Section WithWorld.
Context {World Outcome : Type}.

(** [process_row] and [fetch_rows] act on the world; [None] stands for an
    exception that leaves the call. *)
Variable process_row : CompanyRow.t -> World -> option Outcome * World.
Variable fetch_rows : World -> option (list CompanyRow.t) * World.

(** The loop [for row in rows] of [process_sheet]. *)
Fixpoint process_rows (force : bool) (limit : option Z) (rows : list CompanyRow.t)
         (outcomes : list Outcome) (w : World) : option (list Outcome) * World :=
  match rows with
  | [] => (Some outcomes, w)
  | row :: rest =>
      if skips force row then process_rows force limit rest outcomes w
      else
        match process_row row w with
        | (None, w) => (None, w)
        | (Some outcome, w) =>
            let outcomes := outcomes ++ [outcome] in
            if limit_reached limit outcomes then (Some outcomes, w)
            else process_rows force limit rest outcomes w
        end
  end.

Definition process_sheet (force : bool) (limit : option Z) (w : World)
  : option (list Outcome) * World :=
  match fetch_rows w with
  | (None, w) => (None, w)
  | (Some rows, w) => process_rows force limit rows [] w
  end.

(** [process_row] on each row of a list in turn, up to the first
    exception. *)
Fixpoint run_rows (rows : list CompanyRow.t) (w : World)
  : option (list Outcome) * World :=
  match rows with
  | [] => (Some [], w)
  | row :: rest =>
      match process_row row w with
      | (None, w) => (None, w)
      | (Some outcome, w) =>
          match run_rows rest w with
          | (None, w) => (None, w)
          | (Some outcomes, w) => (Some (outcome :: outcomes), w)
          end
      end
  end.

End WithWorld.

(** The rows of a sheet that a run takes: those no test skips, in sheet
    order, cut to the limit; no limit and the limit 0 cut nothing, and a
    negative limit cuts to one row. *)
Definition selected (force : bool) (limit : option Z) (rows : list CompanyRow.t)
  : list CompanyRow.t :=
  let eligible := filter (fun row => negb (skips force row)) rows in
  match limit with
  | Some n => if n =? 0 then eligible else firstn (Z.to_nat (Z.max 1 n)) eligible
  | None => eligible
  end.

End Processor.

(* ================================================================== *)
(** * Properties *)

(* ------------------------------------------------------------------ *)
(** ** Python primitives *)

Module PyFacts.

Local Abbreviation lt := Py.lt.

Lemma lt_trans (a b c : string) : lt a b -> lt b c -> lt a c.
Proof.
  unfold Py.lt. intros Hab Hbc.
  exact (RelationClasses.StrictOrder_Transitive
           (R := String_as_OT.lt) a b c Hab Hbc).
Qed.

Lemma compare_Gt_lt (a b : string) : String.compare a b = Gt -> lt b a.
Proof.
  unfold Py.lt. intro Hgt. rewrite String.compare_antisym, Hgt. reflexivity.
Qed.

Lemma lt_leb (a b : string) : lt a b -> String.leb a b = true.
Proof. unfold Py.lt, String.leb. now intros ->. Qed.

Lemma leb_refl (a : string) : String.leb a a = true.
Proof.
  unfold String.leb. destruct (String.compare a a) eqn:E; auto.
  pose proof (compare_Gt_lt _ _ E) as Hlt. unfold Py.lt in Hlt. congruence.
Qed.

Lemma insert_In (x y : string) (l : list string) :
  In y (Py.insert x l) <-> y = x \/ In y l.
Proof.
  induction l as [|z l IH]; simpl.
  - intuition.
  - destruct (String.compare x z) eqn:E; simpl.
    + apply String.compare_eq_iff in E. subst z. intuition.
    + intuition.
    + rewrite IH. intuition.
Qed.

Lemma sorted_set_In (y : string) (l : list string) :
  In y (Py.sorted_set l) <-> In y l.
Proof.
  unfold Py.sorted_set. induction l as [|x l IH]; simpl; [tauto|].
  rewrite insert_In, IH. intuition.
Qed.

Lemma insert_sorted (x : string) (l : list string) :
  StronglySorted lt l -> StronglySorted lt (Py.insert x l).
Proof.
  induction 1 as [|z l Hs IH Hall]; simpl.
  - repeat constructor.
  - destruct (String.compare x z) eqn:E.
    + now constructor.
    + constructor; [now constructor|]. constructor; [exact E|].
      eapply Forall_impl; [|exact Hall]. intros w Hw. eapply lt_trans; eassumption.
    + constructor; [assumption|]. apply Forall_forall. intros w Hw.
      apply insert_In in Hw. destruct Hw as [->|Hw].
      * now apply compare_Gt_lt.
      * rewrite Forall_forall in Hall. now apply Hall.
Qed.

Lemma sorted_set_sorted (l : list string) : StronglySorted lt (Py.sorted_set l).
Proof.
  unfold Py.sorted_set. induction l as [|x l IH]; simpl.
  - constructor.
  - now apply insert_sorted.
Qed.

Lemma sorted_set_nil (l : list string) : Py.sorted_set l = [] <-> l = [].
Proof.
  split; [|now intros ->].
  destruct l as [|x l]; [reflexivity|]. intro Hnil.
  assert (Hin : In x (Py.sorted_set (x :: l))) by (apply sorted_set_In; now left).
  rewrite Hnil in Hin. destruct Hin.
Qed.

Lemma filter_sorted (f : string -> bool) (l : list string) :
  StronglySorted lt l -> StronglySorted lt (filter f l).
Proof.
  induction 1 as [|z l Hs IH Hall]; simpl; [constructor|].
  destruct (f z); [|assumption].
  constructor; [assumption|].
  apply Forall_forall. intros w Hw. apply filter_In in Hw.
  rewrite Forall_forall in Hall. now apply Hall.
Qed.

(** The head of a strictly increasing list is its least element. *)
Lemma sorted_head_least (x : string) (l : list string) :
  StronglySorted lt (x :: l) -> forall y, In y (x :: l) -> String.leb x y = true.
Proof.
  intros Hs y [<-|Hy].
  - apply leb_refl.
  - inversion Hs as [|? ? _ Hall]; subst. rewrite Forall_forall in Hall.
    apply lt_leb. now apply Hall.
Qed.

Lemma get_set (d : Py.dict) (k v k' : string) :
  Py.get (Py.set d k v) k' = if String.eqb k k' then Some v else Py.get d k'.
Proof.
  induction d as [|[k0 v0] d IH]; simpl.
  - reflexivity.
  - destruct (String.eqb k0 k) eqn:E0; simpl.
    + apply String.eqb_eq in E0. subst k0.
      destruct (String.eqb k k'); reflexivity.
    + rewrite IH. destruct (String.eqb k0 k') eqn:E1; [|reflexivity].
      apply String.eqb_eq in E1. subst k0.
      rewrite String.eqb_sym, E0. reflexivity.
Qed.

Example remove_literal :
  Py.remove "acme co., ltd. (co., ltd.)" "co., ltd." = "acme  ()".
Proof. reflexivity. Qed.

Example remove_without_overlap : Py.remove "aaa" "aa" = "a".
Proof. reflexivity. Qed.

Example sorted_set_example :
  Py.sorted_set ["b"; "a"; "b"; "ab"] = ["a"; "ab"; "b"].
Proof. reflexivity. Qed.

Example dict_set_keeps_position :
  Py.set (Py.set (Py.set [] "k1" "a") "k2" "b") "k1" "c" = [("k1", "c"); ("k2", "b")].
Proof. reflexivity. Qed.

End PyFacts.

(* ------------------------------------------------------------------ *)
(** ** Selector *)

Module SelectorFacts.
Import Selector.

Lemma Qltb_lt (a b : Q) : Qltb a b = true <-> (a < b)%Q.
Proof.
  unfold Qltb. rewrite negb_true_iff.
  split; intro Hab.
  - apply Qnot_le_lt. intro Hle. apply Qle_bool_iff in Hle. congruence.
  - destruct (Qle_bool b a) eqn:E; [|reflexivity].
    apply Qle_bool_iff in E. exfalso. exact (Qlt_not_le _ _ Hab E).
Qed.

Lemma Qltb_ge (a b : Q) : Qltb a b = false <-> (b <= a)%Q.
Proof.
  unfold Qltb. rewrite negb_false_iff. apply Qle_bool_iff.
Qed.

Section WithFetcher.
Context `{PyLib} {World : Type} (fetch : Fetcher World).

Lemma select_loop_fold n cands : forall best w,
  fst (select_loop fetch n cands best w)
  = fold_left keep_best (fetched_candidates fetch n cands w) best.
Proof.
  induction cands as [|c rest IH]; intros best w; simpl; [reflexivity|].
  destruct (Py.nonempty (SearchResult.url c)); simpl; [|apply IH].
  destruct (fetch (SearchResult.url c) w) as [[pg|] w']; simpl; [|apply IH].
  rewrite IH. destruct best as [b|]; reflexivity.
Qed.

(** Logging does not change what is selected. *)
Lemma select_loop_logged_erase n cands : forall best w log,
  fst (select_loop (logged fetch) n cands best (w, log))
  = fst (select_loop fetch n cands best w).
Proof.
  induction cands as [|c rest IH]; intros best w log; simpl; [reflexivity|].
  destruct (Py.nonempty (SearchResult.url c)); simpl; [|apply IH].
  destruct (fetch (SearchResult.url c) w) as [[pg|] w']; simpl; apply IH.
Qed.

Lemma select_loop_log n cands : forall best w log,
  exists calls,
    snd (snd (select_loop (logged fetch) n cands best (w, log))) = log ++ calls
    /\ map fst calls = filter Py.nonempty (map SearchResult.url cands)
    /\ (fst (select_loop (logged fetch) n cands best (w, log)) = None
        <-> best = None /\ Forall (fun call => snd call = None) calls).
Proof.
  induction cands as [|c rest IH]; intros best w log; simpl.
  - exists []. rewrite app_nil_r. repeat split; auto; tauto.
  - destruct (Py.nonempty (SearchResult.url c)) eqn:Hurl; simpl; [|apply IH].
    destruct (fetch (SearchResult.url c) w) as [[pg|] w'] eqn:Hf; simpl.
    + match goal with
      | |- context [select_loop _ _ _ ?b _] =>
          destruct (IH b w' (log ++ [(SearchResult.url c, Some pg)]))
            as (calls & Hlog & Hurls & Hnone)
      end.
      exists ((SearchResult.url c, Some pg) :: calls).
      rewrite Hlog, <- app_assoc. simpl. rewrite Hurls.
      split; [reflexivity|]. split; [reflexivity|]. split.
      * intro Hr. apply Hnone in Hr. destruct Hr as [Hb _].
        destruct best as [b|]; [destruct (Qltb _ _)|]; discriminate.
      * intros [_ Hall]. inversion Hall; subst. discriminate.
    + destruct (IH best w' (log ++ [(SearchResult.url c, None)]))
        as (calls & Hlog & Hurls & Hnone).
      exists ((SearchResult.url c, None) :: calls).
      rewrite Hlog, <- app_assoc. simpl. rewrite Hurls.
      split; [reflexivity|]. split; [reflexivity|]. split.
      * intro Hr. apply Hnone in Hr. destruct Hr as [Hb Hall].
        split; [assumption|]. constructor; [reflexivity|assumption].
      * intros [Hb Hall]. apply Hnone. split; [assumption|].
        inversion Hall; assumption.
Qed.

(** C1.  Run [select] against a fetcher that records its calls.  Every
    candidate with a non-empty URL is fetched exactly once, in input
    order, whatever the outcome of the earlier calls; and the result is
    absent exactly when every one of these calls failed. *)
Theorem select_absent_iff_nothing_fetched :
  forall (company_name : string) (candidates : list SearchResult.t) (w : World),
    let out := select (logged fetch) company_name candidates (w, []) in
    let calls := snd (snd out) in
    map fst calls = filter Py.nonempty (map SearchResult.url candidates)
    /\ (fst out = None <-> Forall (fun call => snd call = None) calls)
    /\ fst out = fst (select fetch company_name candidates w).
Proof.
  intros name cands w. cbv zeta. unfold select.
  destruct (select_loop_log (_normalize_company_name name) cands None w [])
    as (calls & Hlog & Hurls & Hnone).
  simpl in Hlog. rewrite Hlog. split; [assumption|]. split.
  - rewrite Hnone. tauto.
  - apply select_loop_logged_erase.
Qed.

Lemma keep_best_some l : forall b,
  exists r, fold_left keep_best l (Some b) = Some r
    /\ ((r = b /\ Forall (fun c => (score c <= score b)%Q) l)
        \/ (exists before after,
               l = before ++ r :: after
               /\ (score b < score r)%Q
               /\ Forall (fun c => (score c < score r)%Q) before
               /\ Forall (fun c => (score c <= score r)%Q) after)).
Proof.
  induction l as [|c l IH]; intro b; simpl.
  - exists b. split; [reflexivity|]. left. split; [reflexivity|constructor].
  - destruct (Qltb (score b) (score c)) eqn:E.
    + apply Qltb_lt in E.
      destruct (IH c) as (r & Hr & [[-> Hall] | (l1 & l2 & -> & Hlt & H1 & H2)]).
      * exists c. split; [assumption|]. right. exists [], l.
        repeat split; auto.
      * exists r. split; [assumption|]. right. exists (c :: l1), l2.
        repeat split; auto.
        -- eapply Qlt_trans; eassumption.
    + apply Qltb_ge in E.
      destruct (IH b) as (r & Hr & [[-> Hall] | (l1 & l2 & -> & Hlt & H1 & H2)]).
      * exists b. split; [assumption|]. left. split; auto.
      * exists r. split; [assumption|]. right. exists (c :: l1), l2.
        repeat split; auto.
        constructor; [|assumption]. eapply Qle_lt_trans; eassumption.
Qed.

(** C5.  [select] returns the first candidate, in input order, whose
    score is maximal among the candidates fetched during the run:
    everything fetched before it scores strictly less, everything
    fetched after it scores at most as much.  When exactly one
    candidate is fetched, it is the result whatever its score. *)
Theorem select_first_maximal :
  forall (company_name : string) (candidates : list SearchResult.t) (w : World),
    let fetched :=
      fetched_candidates fetch (_normalize_company_name company_name) candidates w in
    let result := fst (select fetch company_name candidates w) in
    match result with
    | None => fetched = []
    | Some best =>
        exists before after,
          fetched = before ++ best :: after
          /\ Forall (fun c => (score c < score best)%Q) before
          /\ Forall (fun c => (score c <= score best)%Q) after
    end
    /\ match fetched with
       | [only] => result = Some only
       | _ => True
       end.
Proof.
  intros name cands w. cbv zeta. unfold select.
  rewrite select_loop_fold.
  destruct (fetched_candidates fetch (_normalize_company_name name) cands w)
    as [|c l]; simpl; [split; reflexivity|].
  destruct (keep_best_some l c)
    as (r & Hr & [[-> Hall] | (l1 & l2 & -> & Hlt & H1 & H2)]);
    rewrite Hr.
  - split.
    + exists [], l. repeat split; auto.
    + destruct l; [reflexivity|exact I].
  - split.
    + exists (c :: l1), l2. repeat split; auto.
    + destruct l1; exact I.
Qed.

End WithFetcher.
End SelectorFacts.

(* ------------------------------------------------------------------ *)
(** ** Crawler *)

Module CrawlerFacts.
Import Crawler.



(** *** The double-ended queue *)

Lemma push_all (ps : list Push) : forall q,
  fold_left push ps q = rev (left_entries ps) ++ q ++ right_entries ps.
Proof.
  induction ps as [|p ps IH]; intro q; simpl.
  - now rewrite app_nil_r.
  - rewrite IH. destruct p as [|e|e]; simpl.
    + reflexivity.
    + now rewrite <- app_assoc.
    + now rewrite <- !app_assoc.
Qed.

Lemma left_entries_app (ps qs : list Push) :
  left_entries (ps ++ qs) = left_entries ps ++ left_entries qs.
Proof. apply flat_map_app. Qed.

Lemma right_entries_app (ps qs : list Push) :
  right_entries (ps ++ qs) = right_entries ps ++ right_entries qs.
Proof. apply flat_map_app. Qed.

Lemma length_left_entries (ps : list Push) :
  length (left_entries ps) = count_left ps.
Proof.
  unfold count_left. induction ps as [|[|e|e] ps IH]; simpl; auto.
Qed.

Lemma length_right_entries (ps : list Push) :
  length (right_entries ps) = count_right ps.
Proof.
  unfold count_right. induction ps as [|[|e|e] ps IH]; simpl; auto.
Qed.

Lemma count_left_app (ps qs : list Push) :
  count_left (ps ++ qs) = (count_left ps + count_left qs)%nat.
Proof. unfold count_left. now rewrite filter_app, length_app. Qed.

Lemma nth_error_split {A} (l : list A) (i : nat) (x : A) :
  nth_error l i = Some x -> l = firstn i l ++ x :: skipn (S i) l.
Proof.
  revert i. induction l as [|y l IH]; intros [|i] Hn; simpl in *; try discriminate.
  - now inversion Hn.
  - f_equal. now apply IH.
Qed.

(** The position computed by [link_position] holds the link's entry. *)
Lemma link_position_holds (ps : list Push) (q : list (string * Z)) (i pos : nat) (p : Push) :
  nth_error ps i = Some p ->
  link_position ps (length q) i = Some pos ->
  nth_error (fold_left push ps q) pos = push_entry p.
Proof.
  intros Hn Hpos. unfold link_position in Hpos. rewrite Hn in Hpos.
  rewrite push_all.
  pose proof (nth_error_split _ _ Hn) as Hsplit.
  destruct p as [|e|e]; [discriminate| |]; inversion Hpos; subst pos; clear Hpos; simpl.
  - rewrite Hsplit at 1. rewrite left_entries_app. simpl.
    rewrite rev_app_distr. simpl. rewrite <- !app_assoc. simpl.
    rewrite nth_error_app2; rewrite length_rev, length_left_entries; [|lia].
    now rewrite Nat.sub_diag.
  - rewrite nth_error_app2; rewrite length_rev, length_left_entries; [|lia].
    rewrite nth_error_app2; [|lia].
    replace (count_left ps + length q + count_right (firstn i ps)
             - count_left ps - length q)%nat
      with (count_right (firstn i ps)) by lia.
    rewrite Hsplit at 1. rewrite right_entries_app. simpl.
    rewrite nth_error_app2; rewrite length_right_entries; [|lia].
    now rewrite Nat.sub_diag.
Qed.

Lemma link_position_left (ps : list Push) (n i pos : nat) (e : string * Z) :
  nth_error ps i = Some (AppendLeft e) ->
  link_position ps n i = Some pos ->
  (pos < count_left ps)%nat.
Proof.
  intros Hn Hpos. unfold link_position in Hpos. rewrite Hn in Hpos.
  injection Hpos as <-.
  assert (Hcount : count_left ps
                   = (count_left (firstn i ps) + S (count_left (skipn (S i) ps)))%nat).
  { rewrite (nth_error_split _ _ Hn) at 1. now rewrite count_left_app. }
  change (count_left (skipn (S i) ps) < count_left ps)%nat. lia.
Qed.

Lemma link_position_right (ps : list Push) (n i pos : nat) (e : string * Z) :
  nth_error ps i = Some (Append e) ->
  link_position ps n i = Some pos ->
  (count_left ps <= pos)%nat.
Proof.
  intros Hn Hpos. unfold link_position in Hpos. rewrite Hn in Hpos.
  inversion Hpos. lia.
Qed.

Section WithFetcher.
Context `{PyLib} {World : Type} (fetch : Fetcher World) (settings : Settings.t).

Local Abbreviation step := (step fetch settings).
Local Abbreviation crawl_loop := (crawl_loop fetch settings).
Local Abbreviation step_links := (step_links fetch settings).
Local Abbreviation dequeue_time := (dequeue_time fetch settings).
Local Abbreviation budget := (budget settings).

(** *** One iteration *)

Lemma step_inv (base_host : string) (s s' : State World) :
  step base_host s = Some s' ->
  exists url depth rest,
    queue s = (url, depth) :: rest
    /\ Z.of_nat (length (results s)) < Settings.crawler_max_pages settings
    /\ queue s' = fold_left push (map snd (step_links base_host s)) rest
    /\ ((Py.elem (_normalize_url url) (visited s) = true
         /\ visited s' = visited s /\ results s' = results s
         /\ world s' = world s)
        \/ (Py.elem (_normalize_url url) (visited s) = false
            /\ visited s' = _normalize_url url :: visited s
            /\ world s' = snd (fetch url (world s))
            /\ match fst (fetch url (world s)) with
               | None => results s' = results s
               | Some page => results s' = results s ++ [page]
               end)).
Proof.
  unfold Crawler.step, Crawler.step_links.
  destruct (queue s) as [|[url depth] rest]; [discriminate|].
  destruct (Z.of_nat (length (results s)) <? Settings.crawler_max_pages settings) eqn:Hlt;
    simpl; [|discriminate].
  apply Z.ltb_lt in Hlt.
  destruct (Py.elem (_normalize_url url) (visited s)) eqn:Hv.
  - intro Hs; inversion Hs; subst; simpl.
    exists url, depth, rest. split; [reflexivity|]. split; [assumption|].
    split; [reflexivity|]. left. auto.
  - destruct (fetch url (world s)) as [[page|] w'] eqn:Hf; simpl.
    + destruct (depth >=? Settings.crawler_max_depth settings);
        intro Hs; inversion Hs; subst; simpl;
        exists url, depth, rest; (split; [reflexivity|]); (split; [assumption|]);
        (split; [first [reflexivity
                       | unfold enqueue_links; rewrite map_map; reflexivity]|]);
        right; rewrite ?Hf; simpl; auto.
    + intro Hs; inversion Hs; subst; simpl.
      exists url, depth, rest. split; [reflexivity|]. split; [assumption|].
      split; [reflexivity|]. right. rewrite ?Hf; simpl; auto.
Qed.

Lemma step_none (base_host : string) (s : State World) :
  step base_host s = None <->
  queue s = [] \/ Settings.crawler_max_pages settings <= Z.of_nat (length (results s)).
Proof.
  unfold Crawler.step.
  destruct (queue s) as [|[url depth] rest].
  - split; auto.
  - destruct (Z.of_nat (length (results s)) <? Settings.crawler_max_pages settings) eqn:Hlt;
      simpl.
    + apply Z.ltb_lt in Hlt.
      destruct (Py.elem _ _).
      * split; [discriminate|]. intros [?|?]; [discriminate|lia].
      * destruct (fetch url (world s)) as [[page|] w'].
        -- destruct (depth >=? _); split; try discriminate;
             intros [?|?]; try discriminate; lia.
        -- split; [discriminate|]. intros [?|?]; [discriminate|lia].
    + apply Z.ltb_ge in Hlt. split; auto.
Qed.

(** *** Termination *)

Lemma step_decreases (base_host : string) (s s' : State World) :
  step base_host s = Some s' ->
  (budget s' < budget s)%nat
  \/ (budget s' = budget s /\ S (length (queue s')) = length (queue s)).
Proof.
  intro Hs. destruct (step_inv _ _ Hs)
    as (url & depth & rest & Hq & Hlt & Hq' & Hcase).
  unfold budget.
  assert (Hnil : fst (fetch url (world s)) = None
                 \/ Py.elem (_normalize_url url) (visited s) = true
                 -> step_links base_host s = [] \/ True) by auto.
  destruct Hcase as [(Hv & _ & Hr & _) | (Hv & _ & _ & Hr)].
  - right. rewrite Hr. split; [reflexivity|].
    rewrite Hq', Hq. unfold Crawler.step_links. rewrite Hq.
    destruct (negb _); simpl; [reflexivity|]. rewrite Hv. reflexivity.
  - destruct (fst (fetch url (world s))) as [page|] eqn:Hf.
    + left. rewrite Hr, length_app. simpl. lia.
    + right. rewrite Hr. split; [reflexivity|].
      rewrite Hq', Hq. unfold Crawler.step_links. rewrite Hq.
      destruct (negb _); simpl; [reflexivity|]. rewrite Hv, Hf. reflexivity.
Qed.

Lemma crawl_loop_terminates (base_host : string) :
  forall s, exists fuel s', crawl_loop fuel base_host s = Some s'.
Proof.
  intro s. remember (budget s) as b eqn:Hb.
  revert s Hb. induction b as [b IHb] using lt_wf_ind.
  intro s. remember (length (queue s)) as q eqn:Hq.
  revert s Hq. induction q as [q IHq] using lt_wf_ind.
  intros s Hq Hb.
  destruct (step base_host s) as [s1|] eqn:Hs.
  - destruct (step_decreases _ _ Hs) as [Hlt | [Heq Hlen]].
    + destruct (IHb (budget s1) ltac:(lia) s1 eq_refl) as (fuel & s' & Hrun).
      exists (S fuel), s'. simpl. now rewrite Hs.
    + destruct (IHq (length (queue s1)) ltac:(lia) s1 eq_refl ltac:(lia))
        as (fuel & s' & Hrun).
      exists (S fuel), s'. simpl. now rewrite Hs.
  - exists O, s. simpl. now rewrite Hs.
Qed.

(** An invariant of the iterations holds of the final state. *)
Lemma crawl_loop_invariant (P : State World -> Prop) (base_host : string) :
  (forall s s', P s -> step base_host s = Some s' -> P s') ->
  forall fuel s s', P s -> crawl_loop fuel base_host s = Some s' ->
                    P s' /\ step base_host s' = None.
Proof.
  intros Hstep fuel. induction fuel as [|fuel IH]; intros s s' HP; simpl.
  - destruct (step base_host s) eqn:Hs; [discriminate|].
    intro Heq; inversion Heq; subst. auto.
  - destruct (step base_host s) as [s1|] eqn:Hs.
    + apply IH. eapply Hstep; eassumption.
    + intro Heq; inversion Heq; subst. auto.
Qed.

(** *** The page limit *)


(** *** The output only grows *)


(** *** Queue order is dequeue order *)

Lemma dequeue_time_mono (base_host : string) (n : nat) :
  forall (s : State World) (i j t_j : nat),
    (i < j)%nat ->
    dequeue_time n base_host s j = Some t_j ->
    exists t_i, dequeue_time n base_host s i = Some t_i /\ (t_i < t_j)%nat.
Proof.
  induction n as [|n IH]; intros s i j t_j Hij; simpl; [discriminate|].
  destruct (step base_host s) as [s'|]; [|discriminate].
  destruct j as [|j]; [lia|].
  destruct (dequeue_time n base_host s'
              (count_left (map snd (step_links base_host s)) + j)) as [t|] eqn:Hj;
    simpl; [|discriminate].
  intro Heq; injection Heq as <-.
  destruct i as [|i].
  - exists O. split; [reflexivity|lia].
  - destruct (IH s' (count_left (map snd (step_links base_host s)) + i)%nat
                 (count_left (map snd (step_links base_host s)) + j)%nat t
                 ltac:(lia) Hj) as (t_i & Hi & Hlt).
    exists (S t_i). rewrite Hi. split; [reflexivity|lia].
Qed.

(** The entry followed by [dequeue_time] is the one that is taken. *)
Lemma dequeue_time_entry (base_host : string) (n : nat) :
  forall (s : State World) (pos t : nat),
    (pos < length (queue s))%nat ->
    dequeue_time n base_host s pos = Some t ->
    nth_error (dequeued fetch settings (S t) base_host s) t
    = nth_error (queue s) pos.
Proof.
  induction n as [|n IH]; intros s pos t Hpos; [discriminate|].
  cbn [Crawler.dequeue_time].
  destruct (step base_host s) as [s'|] eqn:Hs; [|discriminate].
  destruct (step_inv _ _ Hs) as (url & depth & rest & Hq & _ & Hq' & _).
  destruct pos as [|pos].
  - intro Heq; injection Heq as <-.
    cbn [dequeued]. rewrite Hs, Hq. reflexivity.
  - destruct (dequeue_time n base_host s' _) as [t'|] eqn:Ht; simpl; [|discriminate].
    intro Heq; injection Heq as <-.
    change (dequeued fetch settings (S (S t')) base_host s)
      with (match step base_host s, queue s with
            | Some s', entry :: _ => entry :: dequeued fetch settings (S t') base_host s'
            | _, _ => []
            end).
    rewrite Hs, Hq. cbn [nth_error].
    rewrite Hq in Hpos. simpl in Hpos.
    assert (Hlen : (count_left (map snd (step_links base_host s)) + pos
                    < length (queue s'))%nat).
    { rewrite Hq', push_all, !length_app, length_rev, length_left_entries. lia. }
    rewrite (IH s' _ t' Hlen Ht).
    rewrite Hq', push_all.
    rewrite nth_error_app2; rewrite length_rev, length_left_entries; [|lia].
    replace (count_left (map snd (step_links base_host s)) + pos
             - count_left (map snd (step_links base_host s)))%nat with pos by lia.
    rewrite nth_error_app1 by lia. reflexivity.
Qed.

(** *** Prioritisation *)

Lemma step_links_push (base_host : string) (s : State World) (i : nat)
      (a : Anchor) (p : Push) :
  nth_error (step_links base_host s) i = Some (a, p) ->
  exists page depth, p = link_push base_host page depth a.
Proof.
  unfold Crawler.step_links.
  destruct (queue s) as [|[url depth] rest]; [now destruct i|].
  destruct (negb _); [now destruct i|].
  destruct (Py.elem _ _); [now destruct i|].
  destruct (fst (fetch url (world s))) as [page|]; [|now destruct i].
  destruct (depth >=? _); [now destruct i|].
  intro Hn. apply nth_error_In, in_map_iff in Hn.
  destruct Hn as (link & Heq & _). injection Heq as <- <-.
  now exists page, depth.
Qed.

Lemma link_push_keyword (base_host : string) (page : PageContent.t) (depth : Z)
      (a : Anchor) :
  match link_push base_host page depth a with
  | Skip => True
  | AppendLeft _ => href_has_keyword a = true
  | Append _ => href_has_keyword a = false
  end.
Proof.
  unfold link_push, href_has_keyword.
  destruct (negb (Py.nonempty (href a))); [exact I|].
  destruct (negb (_ || _)); [exact I|].
  destruct (negb (String.eqb _ _)); [exact I|].
  destruct (Py.any_in CONTACT_KEYWORDS (str_lower (href a))); reflexivity.
Qed.

(** C3 (as the code has it).  Of two links read from the same page and
    queued, one whose lower-cased [href] contains a contact keyword and one
    whose [href] does not, the first stands before the second in the queue,
    and whenever the entry of the second is taken from the queue, the entry
    of the first was taken at a strictly earlier iteration. *)
Theorem contact_href_links_dequeued_first :
  contact_links_first fetch settings href_has_keyword.
Proof.
  intros base_host s s' Hs i j a b pa pb pos_a pos_b Ha Hb Hka Hkb Hpa Hpb.
  destruct (step_inv _ _ Hs) as (url & depth & rest & Hq & _ & Hq' & _).
  rewrite Hq in Hpa, Hpb. simpl in Hpa, Hpb.
  assert (Ha' : nth_error (map snd (step_links base_host s)) i = Some pa)
    by (rewrite nth_error_map, Ha; reflexivity).
  assert (Hb' : nth_error (map snd (step_links base_host s)) j = Some pb)
    by (rewrite nth_error_map, Hb; reflexivity).
  assert (Hhold : nth_error (queue s') pos_a = push_entry pa
                  /\ nth_error (queue s') pos_b = push_entry pb).
  { rewrite Hq'. split; eapply link_position_holds; eassumption. }
  split; [exact Hhold|].
  assert (Hlt : (pos_a < pos_b)%nat).
  { destruct (step_links_push _ _ _ Ha) as (page_a & depth_a & Hpush_a).
    destruct (step_links_push _ _ _ Hb) as (page_b & depth_b & Hpush_b).
    pose proof (link_push_keyword base_host page_a depth_a a) as Hcase_a.
    pose proof (link_push_keyword base_host page_b depth_b b) as Hcase_b.
    rewrite <- Hpush_a in Hcase_a. rewrite <- Hpush_b in Hcase_b.
    destruct pa as [|ea|ea].
    - unfold link_position in Hpa. rewrite Ha' in Hpa. discriminate.
    - destruct pb as [|eb|eb].
      + unfold link_position in Hpb. rewrite Hb' in Hpb. discriminate.
      + congruence.
      + pose proof (link_position_left _ _ _ Ha' Hpa).
        pose proof (link_position_right _ _ _ Hb' Hpb). lia.
    - congruence. }
  assert (Hbound : forall pos p k,
             nth_error (map snd (step_links base_host s)) k = Some p ->
             link_position (map snd (step_links base_host s)) (length rest) k
             = Some pos ->
             nth_error (queue s') pos = push_entry p ->
             (pos < length (queue s'))%nat).
  { intros pos p k Hk Hpos Hnth. apply nth_error_Some. rewrite Hnth.
    unfold link_position in Hpos. rewrite Hk in Hpos.
    destruct p; simpl; discriminate. }
  destruct Hhold as [Hhold_a Hhold_b].
  intros n t_b Ht. split.
  - rewrite <- Hhold_b. eapply dequeue_time_entry; [|eassumption].
    exact (Hbound pos_b pb j Hb' Hpb Hhold_b).
  - destruct (dequeue_time_mono _ _ _ Hlt Ht) as (t_a & Hta & Hlt').
    exists t_a. split; [assumption|]. split; [assumption|].
    rewrite <- Hhold_a. eapply dequeue_time_entry; [|eassumption].
    exact (Hbound pos_a pa i Ha' Hpa Hhold_a).
Qed.

(** *** The first page *)



(** *** The page limit, generally *)


End WithFetcher.

Section Recorded.
Context `{PyLib} {World : Type} (fetch : Fetcher World) (settings : Settings.t).

Lemma NoDup_snoc {A} (l : list A) (x : A) :
  NoDup l -> ~ In x l -> NoDup (l ++ [x]).
Proof.
  intros Hl Hx. apply (Permutation_NoDup (l := x :: l)).
  - apply Permutation_cons_append.
  - now constructor.
Qed.






End Recorded.
End CrawlerFacts.


(* ------------------------------------------------------------------ *)
(** ** Extractor *)

Module ExtractorFacts.
Import ExtractionResult Extractor.

Section WithLib.
Context `{PyLib}.

(** Case analysis on every test of a scan step. *)
Ltac scan_cases :=
  repeat match goal with
         | |- context [if ?b then _ else _] => destruct b eqn:?
         | |- context [match ?x with Some _ => _ | None => _ end] => destruct x eqn:?
         | |- context [match ?x with [] => _ | _ :: _ => _ end] => destruct x eqn:?
         | |- context [let '(_, _) := ?x in _] => destruct x eqn:?
         end; simpl in *.

Lemma scan_contact_link_frame (acc : Acc) (soup : Soup) (page : PageContent.t) :
  let e' := fst (scan_contact_link acc soup page) in
  email_part e' = email_part (fst acc)
  /\ phone_part e' = phone_part (fst acc)
  /\ sns e' = sns (fst acc).
Proof.
  unfold scan_contact_link. destruct acc as [e ev]. scan_cases; auto.
Qed.

Lemma scan_emails_frame (acc : Acc) (soup : Soup) (page : PageContent.t) :
  let e' := fst (scan_emails acc soup page) in
  contact_form_url e' = contact_form_url (fst acc)
  /\ email_guessed e' = email_guessed (fst acc)
  /\ phone_part e' = phone_part (fst acc)
  /\ sns e' = sns (fst acc).
Proof.
  unfold scan_emails. destruct acc as [e ev]. scan_cases; auto.
Qed.

Lemma scan_phone_fax_frame (acc : Acc) (soup : Soup) (page : PageContent.t) :
  let e' := fst (scan_phone_fax acc soup page) in
  contact_form_url e' = contact_form_url (fst acc)
  /\ email_part e' = email_part (fst acc)
  /\ sns e' = sns (fst acc).
Proof.
  unfold scan_phone_fax. destruct acc as [e ev]. scan_cases; auto.
Qed.

Lemma merge_sns_frame (items : list (string * string)) : forall acc : Acc,
  let e' := fst (fold_left merge_sns_item items acc) in
  contact_form_url e' = contact_form_url (fst acc)
  /\ email_part e' = email_part (fst acc)
  /\ phone_part e' = phone_part (fst acc).
Proof.
  induction items as [|[k v] items IH]; intros [e ev]; simpl; [auto|].
  destruct (negb (Py.mem (sns e) k)); simpl.
  - destruct (IH (set_sns e (Py.set (sns e) k v), v :: ev)) as (? & ? & ?). auto.
  - apply IH.
Qed.

Lemma scan_sns_frame (acc : Acc) (soup : Soup) (page : PageContent.t) :
  let e' := fst (scan_sns acc soup page) in
  contact_form_url e' = contact_form_url (fst acc)
  /\ email_part e' = email_part (fst acc)
  /\ phone_part e' = phone_part (fst acc).
Proof. apply merge_sns_frame. Qed.

(** *** Guessed addresses *)

Lemma scan_page_no_email (acc : Acc) (page : PageContent.t) :
  _extract_emails_from_page (BeautifulSoup (PageContent.html page)) = [] ->
  email_part (fst (scan_page acc page)) = email_part (fst acc).
Proof.
  intro Hnone.
  unfold scan_page.
  set (soup := BeautifulSoup (PageContent.html page)) in *.
  destruct (scan_sns_frame
              (scan_phone_fax (scan_emails (scan_contact_link acc soup page) soup page)
                              soup page) soup page) as (_ & -> & _).
  destruct (scan_phone_fax_frame
              (scan_emails (scan_contact_link acc soup page) soup page) soup page)
    as (_ & -> & _).
  destruct (scan_contact_link_frame acc soup page) as (<- & _).
  unfold scan_emails. destruct (scan_contact_link acc soup page) as [e ev].
  rewrite Hnone. reflexivity.
Qed.

Lemma sorted_guesses (d : string) :
  Py.sorted_set
    [("info@" ++ d)%string; ("contact@" ++ d)%string; ("sales@" ++ d)%string;
     ("support@" ++ d)%string; ("inquiry@" ++ d)%string]
  = [("contact@" ++ d)%string; ("info@" ++ d)%string; ("inquiry@" ++ d)%string;
     ("sales@" ++ d)%string; ("support@" ++ d)%string].
Proof. reflexivity. Qed.

(** C4 (as the code has it).  When no page yields an email, the guesses
    are formed against the lower-cased network location of the official
    URL: provided it is not empty, [email_guessed] is exactly the five
    role addresses at it, in sorted order, and [email_main] is the
    [info@] one. *)
Theorem guesses_against_netloc_when_no_email :
  forall (pages : list PageContent.t) (base_url : string),
    Forall (fun page =>
              _extract_emails_from_page (BeautifulSoup (PageContent.html page)) = [])
           pages ->
    let domain := str_lower (netloc (urlparse base_url)) in
    Py.nonempty domain = true ->
    let result := extract_contact_info pages base_url in
    email_guessed result
    = [("contact@" ++ domain)%string; ("info@" ++ domain)%string;
       ("inquiry@" ++ domain)%string; ("sales@" ++ domain)%string;
       ("support@" ++ domain)%string]
    /\ email_main result = Some ("info@" ++ domain)%string.
Proof.
  intros pages base_url Hnone domain Hdomain result.
  assert (Hloop : email_part (fst (fold_left scan_page pages (ExtractionResult.empty, [])))
                  = (None, [], [])).
  { change (None, [], []) with (email_part (fst (ExtractionResult.empty, @nil string))).
    generalize (ExtractionResult.empty, @nil string).
    induction Hnone as [|page pages Hpage _ IH]; intro acc; simpl; [reflexivity|].
    rewrite IH. now apply scan_page_no_email. }
  subst result. unfold extract_contact_info, finish.
  destruct (fold_left scan_page pages (empty, [])) as [e ev].
  unfold email_part in Hloop. simpl in Hloop.
  injection Hloop as Hmain Hrole Hguessed.
  rewrite Hrole. simpl.
  unfold _guess_role_emails. fold domain. rewrite Hdomain. simpl.
  rewrite Hmain, Hguessed. simpl. split; [|reflexivity].
  apply sorted_guesses.
Qed.

(** *** The main address of a page *)

Lemma scan_emails_main (acc : Acc) (soup : Soup) (page : PageContent.t) :
  email_main (fst (scan_emails acc soup page))
  = if Py.truthy (email_main (fst acc)) then email_main (fst acc)
    else match filter _is_role_email (_extract_emails_from_page soup) with
         | first :: _ => Some first
         | [] =>
             match _extract_emails_from_page soup with
             | first :: _ => Some first
             | [] => email_main (fst acc)
             end
         end.
Proof.
  unfold scan_emails. destruct acc as [e ev]. simpl.
  destruct (filter _is_role_email (_extract_emails_from_page soup));
    destruct (_extract_emails_from_page soup);
    destruct (Py.truthy (email_main e)); reflexivity.
Qed.

Lemma scan_page_email_main (acc : Acc) (page : PageContent.t) :
  email_main (fst (scan_page acc page))
  = email_main
      (fst (scan_emails acc (BeautifulSoup (PageContent.html page)) page)).
Proof.
  unfold scan_page.
  set (soup := BeautifulSoup (PageContent.html page)).
  destruct (scan_sns_frame
              (scan_phone_fax (scan_emails (scan_contact_link acc soup page) soup page)
                              soup page) soup page) as (_ & Hs & _).
  destruct (scan_phone_fax_frame
              (scan_emails (scan_contact_link acc soup page) soup page) soup page)
    as (_ & Hp & _).
  destruct (scan_contact_link_frame acc soup page) as (Hc & _).
  unfold email_part in *.
  injection Hs as -> _ _. injection Hp as -> _ _. injection Hc as Hc _ _.
  rewrite !scan_emails_main, Hc. reflexivity.
Qed.

(** C8 (as the code has it).  A page never replaces an [email_main] that
    is set.  On a page reached with [email_main] unset: if the page has a
    role-based address, [email_main] becomes the least role-based address
    of the page in string order; if it has addresses but none role-based,
    [email_main] becomes the least address of the page. *)
Theorem email_main_is_least_address_of_page :
  forall (acc : Acc) (page : PageContent.t),
    let soup := BeautifulSoup (PageContent.html page) in
    let main' := email_main (fst (scan_page acc page)) in
    (Py.truthy (email_main (fst acc)) = true -> main' = email_main (fst acc))
    /\ (Py.truthy (email_main (fst acc)) = false ->
        (forall r, In r (scanned_emails soup) -> _is_role_email r = true ->
           exists m, main' = Some m
                     /\ In m (scanned_emails soup) /\ _is_role_email m = true
                     /\ forall r', In r' (scanned_emails soup) ->
                                   _is_role_email r' = true ->
                                   String.leb m r' = true)
        /\ (forall e, In e (scanned_emails soup) ->
            (forall e', In e' (scanned_emails soup) -> _is_role_email e' = false) ->
            exists m, main' = Some m
                      /\ In m (scanned_emails soup)
                      /\ forall e', In e' (scanned_emails soup) ->
                                    String.leb m e' = true)).
Proof.
  intros acc page soup main'. subst main'.
  rewrite scan_page_email_main, scan_emails_main. fold soup.
  split; [now intros ->|]. intros ->.
  pose proof (PyFacts.sorted_set_sorted (scanned_emails soup)) as Hsorted.
  fold (_extract_emails_from_page soup) in Hsorted.
  split.
  - intros r Hr Hrole.
    pose proof (PyFacts.filter_sorted _is_role_email Hsorted) as Hroles.
    assert (Hin : In r (filter _is_role_email (_extract_emails_from_page soup))).
    { apply filter_In. split; [|assumption]. now apply PyFacts.sorted_set_In. }
    destruct (filter _is_role_email (_extract_emails_from_page soup))
      as [|m roles] eqn:Hf; [destruct Hin|].
    assert (Hm : In m (m :: roles)) by now left.
    rewrite <- Hf in Hm. apply filter_In in Hm. destruct Hm as [Hm Hmrole].
    unfold _extract_emails_from_page in Hm.
    apply (proj1 (PyFacts.sorted_set_In _ _)) in Hm.
    exists m. split; [reflexivity|]. split; [assumption|]. split; [assumption|].
    intros r' Hr' Hrole'.
    apply (PyFacts.sorted_head_least Hroles).
    rewrite <- Hf. apply filter_In. split; [|assumption].
    now apply PyFacts.sorted_set_In.
  - intros e He Hnone.
    assert (Hf : filter _is_role_email (_extract_emails_from_page soup) = []).
    { destruct (filter _ _) as [|m roles] eqn:Hf; [reflexivity|].
      assert (Hm : In m (m :: roles)) by now left.
      rewrite <- Hf in Hm. apply filter_In in Hm. destruct Hm as [Hm Hmrole].
      unfold _extract_emails_from_page in Hm.
    apply (proj1 (PyFacts.sorted_set_In _ _)) in Hm. apply Hnone in Hm. congruence. }
    rewrite Hf.
    assert (Hin : In e (_extract_emails_from_page soup))
      by now apply PyFacts.sorted_set_In.
    destruct (_extract_emails_from_page soup) as [|m emails] eqn:He'; [destruct Hin|].
    exists m. split; [reflexivity|]. split.
    + apply (PyFacts.sorted_set_In m (scanned_emails soup)).
      fold (_extract_emails_from_page soup). rewrite He'. now left.
    + intros e' Hin'. apply (PyFacts.sorted_head_least Hsorted).
      rewrite <- He'. now apply PyFacts.sorted_set_In.
Qed.

(** *** Social links *)

Lemma scan_sns_anchor_get (current_url : string) (results : Py.dict)
      (anchor : Anchor) (key : string) (patterns : list string) :
  In (key, patterns) SNS_PATTERNS ->
  Py.get (scan_sns_anchor current_url results anchor) key
  = if sns_match patterns (urljoin current_url (href anchor))
    then Some (urljoin current_url (href anchor))
    else Py.get results key.
Proof.
  unfold scan_sns_anchor.
  set (abs_url := urljoin current_url (href anchor)).
  unfold SNS_PATTERNS. cbn [fold_left In].
  intros [Heq|[Heq|[Heq|[Heq|[]]]]]; injection Heq as <- <-;
    repeat match goal with
           | |- context [sns_match ?p abs_url] =>
               destruct (sns_match p abs_url) eqn:?
           end;
    rewrite ?PyFacts.get_set; reflexivity.
Qed.

Lemma last_or_init {A} (l : list A) (init : option A) :
  last_or init l = match last_error l with Some x => Some x | None => init end.
Proof.
  unfold last_error, last_or. revert init.
  induction l as [|y l IH]; intro init; simpl; [reflexivity|].
  rewrite (IH (Some y)).
  destruct (fold_left _ l None); reflexivity.
Qed.

Lemma last_error_nil {A} (l : list A) : last_error l = None <-> l = [].
Proof.
  split; [|now intros ->]. destruct l as [|x l]; [reflexivity|].
  unfold last_error. intro Hnone. simpl in Hnone.
  change (last_or (Some x) l = None) in Hnone.
  rewrite last_or_init in Hnone. destruct (last_error l); discriminate.
Qed.

Lemma extract_sns_links_get (current_url : string) (key : string)
      (patterns : list string) (links : list Anchor) :
  In (key, patterns) SNS_PATTERNS ->
  forall results,
    Py.get (fold_left (scan_sns_anchor current_url) links results) key
    = last_or (Py.get results key)
              (filter (sns_match patterns)
                      (map (fun a => urljoin current_url (href a)) links)).
Proof.
  intro Hin. induction links as [|a links IH]; intro results; simpl.
  - reflexivity.
  - rewrite IH, (scan_sns_anchor_get _ _ _ Hin).
    destruct (sns_match patterns (urljoin current_url (href a))); reflexivity.
Qed.

Lemma mem_get (d : Py.dict) (k : string) :
  Py.mem d k = false <-> Py.get d k = None.
Proof. unfold Py.mem. destruct (Py.get d k); split; congruence. Qed.

Lemma merge_sns_get (key : string) (items : list (string * string)) :
  forall acc : Acc,
    Py.get (sns (fst (fold_left merge_sns_item items acc))) key
    = match Py.get (sns (fst acc)) key with
      | Some v => Some v
      | None => Py.get items key
      end.
Proof.
  induction items as [|[k v] items IH]; intros [e ev]; simpl.
  - now destruct (Py.get (sns e) key).
  - destruct (Py.mem (sns e) k) eqn:Hmem; simpl; rewrite IH; simpl.
    + destruct (Py.get (sns e) key) eqn:Hget; [reflexivity|].
      destruct (String.eqb k key) eqn:Hk; [|reflexivity].
      apply String.eqb_eq in Hk. subst k.
      apply mem_get in Hget. congruence.
    + rewrite PyFacts.get_set.
      destruct (String.eqb k key) eqn:Hk.
      * apply String.eqb_eq in Hk. subst k.
        apply mem_get in Hmem. now rewrite Hmem.
      * reflexivity.
Qed.

Lemma scan_page_sns (acc : Acc) (page : PageContent.t) (key : string)
      (patterns : list string) :
  In (key, patterns) SNS_PATTERNS ->
  Py.get (sns (fst (scan_page acc page))) key
  = match Py.get (sns (fst acc)) key with
    | Some v => Some v
    | None => last_error (sns_urls patterns page)
    end.
Proof.
  intro Hin. unfold scan_page, scan_sns.
  set (soup := BeautifulSoup (PageContent.html page)).
  rewrite merge_sns_get.
  destruct (scan_phone_fax_frame
              (scan_emails (scan_contact_link acc soup page) soup page) soup page)
    as (_ & _ & ->).
  destruct (scan_emails_frame (scan_contact_link acc soup page) soup page)
    as (_ & _ & _ & ->).
  destruct (scan_contact_link_frame acc soup page) as (_ & _ & ->).
  destruct (Py.get (sns (fst acc)) key); [reflexivity|].
  unfold _extract_sns_links. rewrite (extract_sns_links_get _ _ Hin).
  reflexivity.
Qed.

Lemma scan_pages_sns (key : string) (patterns : list string)
      (pages : list PageContent.t) :
  In (key, patterns) SNS_PATTERNS ->
  forall acc : Acc,
    Py.get (sns (fst (fold_left scan_page pages acc))) key
    = match Py.get (sns (fst acc)) key with
      | Some v => Some v
      | None => sns_first_page_last_anchor patterns pages
      end.
Proof.
  intro Hin. unfold sns_first_page_last_anchor.
  induction pages as [|page pages IH]; intro acc; simpl.
  - now destruct (Py.get (sns (fst acc)) key).
  - rewrite IH, (scan_page_sns _ _ Hin).
    destruct (Py.get (sns (fst acc)) key); [reflexivity|].
    destruct (sns_urls patterns page) as [|u us] eqn:Hu; simpl; [reflexivity|].
    rewrite ?Hu.
    destruct (last_error (u :: us)) eqn:Hlast; [reflexivity|].
    apply last_error_nil in Hlast. discriminate.
Qed.

Lemma finish_frame (acc : Acc) (domain : string) :
  contact_form_url (finish acc domain) = contact_form_url (fst acc)
  /\ sns (finish acc domain) = sns (fst acc)
  /\ phone_part (finish acc domain) = phone_part (fst acc).
Proof.
  unfold finish. destruct acc as [e ev]. scan_cases; auto.
Qed.

(** C7 (as the code has it).  For each platform of the table, the stored
    entry comes from the first page, in the order supplied, that has an
    anchor matching the platform, and it is the last matching anchor of
    that page in document order; pages after it never change it. *)
Theorem sns_first_page_last_anchor_wins :
  forall (pages : list PageContent.t) (base_url key : string) (patterns : list string),
    In (key, patterns) SNS_PATTERNS ->
    Py.get (sns (extract_contact_info pages base_url)) key
    = sns_first_page_last_anchor patterns pages.
Proof.
  intros pages base_url key patterns Hin. unfold extract_contact_info.
  destruct (finish_frame (fold_left scan_page pages (empty, []))
                         (netloc (urlparse base_url))) as (_ & -> & _).
  now rewrite (scan_pages_sns pages Hin).
Qed.

(** *** Evidence *)

Lemma fact_url_transfer (pages : list PageContent.t) (e e' : ExtractionResult.t)
      (x : string) :
  contact_form_url e' = contact_form_url e ->
  (forall k v, Py.get (sns e) k = Some v -> Py.get (sns e') k = Some v) ->
  fact_url pages e x -> fact_url pages e' x.
Proof.
  intros Hcf Hsns [Hx | [Hx | (key & Hx)]].
  - left. congruence.
  - right. now left.
  - right. right. exists key. now apply Hsns.
Qed.

Lemma scan_contact_link_justified (pages : list PageContent.t) (acc : Acc)
      (soup : Soup) (page : PageContent.t) :
  evidence_justified pages acc ->
  evidence_justified pages (scan_contact_link acc soup page).
Proof.
  destruct acc as [e ev]. intros [Hcf Hev]. simpl in *.
  unfold scan_contact_link.
  destruct (Py.truthy (contact_form_url e)) eqn:Htruthy; simpl; [now split|].
  destruct (_find_contact_link soup (PageContent.url page)) as [link|];
    [|now split].
  destruct (Py.nonempty link) eqn:Hlink; [|now split].
  split; simpl.
  - intros l Heq. injection Heq as <-. assumption.
  - intros x [<- | Hx]; [now left|].
    destruct (Hev x Hx) as [Hc | [Hp | Hs]].
    + apply Hcf in Hc as Hne. rewrite Hc in Htruthy. simpl in Htruthy. congruence.
    + right. now left.
    + right. now right.
Qed.

Lemma scan_emails_justified (pages : list PageContent.t) (acc : Acc)
      (page : PageContent.t) :
  In page pages ->
  evidence_justified pages acc ->
  evidence_justified pages
    (scan_emails acc (BeautifulSoup (PageContent.html page)) page).
Proof.
  intros Hpage [Hcf Hev].
  set (soup := BeautifulSoup (PageContent.html page)).
  destruct (scan_emails_frame acc soup page) as (Hc & _ & _ & Hs).
  assert (Hsnd : snd (scan_emails acc soup page)
                 = if Py.some (_extract_emails_from_page soup)
                   then PageContent.url page :: snd acc else snd acc).
  { unfold scan_emails. destruct acc as [e ev]. reflexivity. }
  split.
  - intros l Hl. apply Hcf. now rewrite <- Hc.
  - intros x Hx. rewrite Hsnd in Hx.
    assert (Hold : In x (snd acc) ->
                   fact_url pages (fst (scan_emails acc soup page)) x).
    { intro Hin. apply (fact_url_transfer (e := fst acc)); auto.
      intros k v. now rewrite Hs. }
    destruct (Py.some (_extract_emails_from_page soup)) eqn:Hsome; [|auto].
    destruct Hx as [<- | Hx]; [|auto].
    right. left. exists page. split; [assumption|]. split; [reflexivity|].
    unfold page_gave_fact. fold soup. now rewrite Hsome.
Qed.

Lemma scan_phone_fax_justified (pages : list PageContent.t) (acc : Acc)
      (page : PageContent.t) :
  In page pages ->
  evidence_justified pages acc ->
  evidence_justified pages
    (scan_phone_fax acc (BeautifulSoup (PageContent.html page)) page).
Proof.
  intros Hpage [Hcf Hev].
  set (soup := BeautifulSoup (PageContent.html page)).
  destruct (scan_phone_fax_frame acc soup page) as (Hc & _ & Hs).
  assert (Hnew : forall x, In x (snd (scan_phone_fax acc soup page)) ->
                           In x (snd acc)
                           \/ (x = PageContent.url page
                               /\ page_gave_fact page = true)).
  { unfold page_gave_fact. fold soup. unfold scan_phone_fax.
    destruct acc as [e ev]. destruct (_extract_phone_fax soup) as [phone fax].
    simpl.
    destruct (Py.truthy phone); destruct (Py.truthy fax);
      destruct (Py.truthy (phone_main e)); simpl;
      destruct (Py.truthy (fax_main e));
      simpl; rewrite ?orb_true_r; intros x Hx;
      repeat (destruct Hx as [<- | Hx]; [now right|]); auto. }
  split.
  - intros l Hl. apply Hcf. now rewrite <- Hc.
  - intros x Hx. destruct (Hnew x Hx) as [Hold | [-> Hfact]].
    + apply (fact_url_transfer (e := fst acc)); auto.
      intros k v. now rewrite Hs.
    + right. left. now exists page.
Qed.

Lemma merge_sns_justified (pages : list PageContent.t)
      (items : list (string * string)) :
  forall acc : Acc,
    evidence_justified pages acc ->
    evidence_justified pages (fold_left merge_sns_item items acc).
Proof.
  induction items as [|[k v] items IH]; intros [e ev] Hinv; simpl; [assumption|].
  apply IH. destruct Hinv as [Hcf Hev]. simpl in *.
  destruct (Py.mem (sns e) k) eqn:Hmem; simpl; [now split|].
  split; simpl; [assumption|].
  intros x [<- | Hx].
  - right. right. exists k. simpl.
    rewrite PyFacts.get_set, String.eqb_refl. reflexivity.
  - apply (fact_url_transfer (e := e)); auto.
    intros k' v' Hget. simpl. rewrite PyFacts.get_set.
    destruct (String.eqb k k') eqn:Hk; [|assumption].
    apply String.eqb_eq in Hk. subst k'.
    apply mem_get in Hmem. congruence.
Qed.

Lemma scan_page_justified (pages : list PageContent.t) (acc : Acc)
      (page : PageContent.t) :
  In page pages ->
  evidence_justified pages acc ->
  evidence_justified pages (scan_page acc page).
Proof.
  intros Hpage Hinv. unfold scan_page, scan_sns.
  apply merge_sns_justified, scan_phone_fax_justified; [assumption|].
  apply scan_emails_justified; [assumption|].
  now apply scan_contact_link_justified.
Qed.

Lemma scan_pages_justified (pages : list PageContent.t) :
  forall (seen : list PageContent.t) (acc : Acc),
    (forall page, In page seen -> In page pages) ->
    evidence_justified pages acc ->
    evidence_justified pages (fold_left scan_page seen acc).
Proof.
  induction seen as [|page seen IH]; intros acc Hsub Hinv; simpl; [assumption|].
  apply IH.
  - intros p Hp. apply Hsub. now right.
  - apply scan_page_justified; [|assumption]. apply Hsub. now left.
Qed.

(** C9 (as the code has it).  Every entry of [evidence_sources] is the
    contact-form link, the URL of a supplied page that yielded an email, a
    phone number or a fax number, a stored social link, or one of the
    guessed addresses. *)
Theorem evidence_is_fact_url_or_guess :
  forall (pages : list PageContent.t) (base_url e : string),
    In e (evidence_sources (extract_contact_info pages base_url)) ->
    fact_url pages (extract_contact_info pages base_url) e
    \/ In e (email_guessed (extract_contact_info pages base_url)).
Proof.
  intros pages base_url e.
  assert (Hinv : evidence_justified pages
                   (fold_left scan_page pages (ExtractionResult.empty, []))).
  { apply scan_pages_justified; [auto|].
    split; simpl; [discriminate|intros ? []]. }
  unfold extract_contact_info.
  destruct (finish_frame (fold_left scan_page pages (empty, []))
                         (netloc (urlparse base_url))) as (Hc & Hs & _).
  set (acc := fold_left scan_page pages (empty, [])) in *.
  set (dom := netloc (urlparse base_url)) in *.
  intro He.
  assert (Hcases : In e (snd acc) \/ In e (email_guessed (finish acc dom))).
  { revert He. unfold finish. destruct acc as [x ev].
    destruct (negb (Py.some (email_role_based x))); simpl.
    - destruct (Py.some (_guess_role_emails dom) && negb (Py.truthy (email_main x)));
        simpl; intro He; apply (proj1 (PyFacts.sorted_set_In _ _)) in He;
        apply in_app_or in He; destruct He as [He | He]; auto;
        right; apply (proj2 (PyFacts.sorted_set_In _ _)), in_or_app; now right.
    - intro He. apply (proj1 (PyFacts.sorted_set_In _ _)) in He. now left. }
  destruct Hcases as [Hev | Hg]; [left|now right].
  destruct Hinv as [_ Hev']. apply Hev' in Hev.
  apply (fact_url_transfer (e := fst acc)); auto.
  intros k v. now rewrite Hs.
Qed.

(** *** Phone numbers *)








End WithLib.
End ExtractorFacts.

(* ------------------------------------------------------------------ *)
(** ** The properties on the example inputs *)

Module Checks.
Import Example.

Local Abbreviation start := "https://example.co.jp".
Local Abbreviation official := "https://www.example.co.jp".

(** *** Selector *)

(** A failed fetch is passed over, and the only fetched candidate is
    selected although its score is negative. *)
Example select_keeps_going_after_failure :
  fst (@Selector.select Example.lib unit web "Acme"
         [SearchResult.mk "Acme (mirror)" "https://nowhere.example" None None;
          SearchResult.mk "Acme" "https://www.example.go.jp" None None] tt)
  = Some (Selector.mk (SearchResult.mk "Acme" "https://www.example.go.jp" None None)
                      (Some gov_page) (-2)).
Proof. vm_compute. reflexivity. Qed.

(** The scenario of [tests/test_site_selector.py]: the page on the
    matching domain scores 3 + 2 + 1 and is preferred. *)
Example select_prefers_matching_domain :
  fst (@Selector.select Example.lib unit search_web "Example株式会社"
         [SearchResult.mk "Example" "https://example.co.jp" None (Some 1);
          SearchResult.mk "Other" "https://other.com" None (Some 2)] tt)
  = Some (Selector.mk
            (SearchResult.mk "Example" "https://example.co.jp" None (Some 1))
            (fst (search_web "https://example.co.jp" tt))
            6).
Proof. vm_compute. reflexivity. Qed.

(** *** Crawler *)





Local Abbreviation about_link := {| href := "/about"; get_text := "about us" |}.
Local Abbreviation support_link := {| href := "/support"; get_text := "contact us" |}.
Local Abbreviation contact_link := {| href := "/contact"; get_text := "Mail" |}.

(** C3 as stated fails: the link to [/support] has the anchor text
    "contact us" but is queued behind the link to [/about], which is taken
    first. *)
Lemma anchor_text_link_is_not_first :
  ~ @Crawler.contact_links_first Example.lib unit web (settings 6)
      (@Crawler.anchor_text_has_keyword Example.lib).
Proof.
  intro Hclaim.
  assert (Hstep : @Crawler.step Example.lib unit web (settings 6) "example.co.jp"
                    (Crawler.initial start tt) = Some after_home)
    by (vm_compute; reflexivity).
  destruct (Hclaim "example.co.jp" (Crawler.initial start tt) after_home Hstep
                   1%nat 0%nat support_link about_link
                   (Crawler.Append ("https://example.co.jp/support", 1))
                   (Crawler.Append ("https://example.co.jp/about", 1))
                   2%nat 1%nat
                   ltac:(vm_compute; reflexivity) ltac:(vm_compute; reflexivity)
                   ltac:(vm_compute; reflexivity) ltac:(vm_compute; reflexivity)
                   ltac:(vm_compute; reflexivity) ltac:(vm_compute; reflexivity))
    as [_ Horder].
  destruct (Horder 2%nat 1%nat ltac:(vm_compute; reflexivity))
    as (_ & t_a & Ht & _).
  vm_compute in Ht. discriminate.
Qed.

(** C3 on the example site: the link to [/contact] is taken before the
    link to [/about], which precedes it in the document. *)
Lemma contact_href_link_first_on_example :
  exists t_contact,
    @Crawler.dequeue_time Example.lib unit web (settings 6) 5 "example.co.jp"
      after_home 0 = Some t_contact
    /\ (t_contact < 1)%nat
    /\ nth_error (@Crawler.dequeued Example.lib unit web (settings 6)
                    (S t_contact) "example.co.jp" after_home) t_contact
       = Some ("https://example.co.jp/contact", 1).
Proof.
  assert (Hstep : @Crawler.step Example.lib unit web (settings 6) "example.co.jp"
                    (Crawler.initial start tt) = Some after_home)
    by (vm_compute; reflexivity).
  exact (proj2
           (proj2 (@CrawlerFacts.contact_href_links_dequeued_first
                     Example.lib unit web (settings 6)
                     "example.co.jp" (Crawler.initial start tt) after_home Hstep
                     2%nat 0%nat contact_link about_link
                     (Crawler.AppendLeft ("https://example.co.jp/contact", 1))
                     (Crawler.Append ("https://example.co.jp/about", 1))
                     0%nat 1%nat
                     ltac:(vm_compute; reflexivity) ltac:(vm_compute; reflexivity)
                     ltac:(vm_compute; reflexivity) ltac:(vm_compute; reflexivity)
                     ltac:(vm_compute; reflexivity) ltac:(vm_compute; reflexivity))
                  5%nat 1%nat ltac:(vm_compute; reflexivity))).
Defined.

(** *** Extractor *)

(** The scenario of [tests/test_site_scraper.py]: the fields the test
    asserts on, as the model computes them.  A role-based address is found,
    so no address is guessed. *)
Example extract_on_repository_test :
  let result :=
    @Extractor.extract_contact_info test_lib test_pages "https://example.co.jp" in
  ExtractionResult.contact_form_url result = Some "https://example.co.jp/contact"
  /\ ExtractionResult.email_main result = Some "info@example.co.jp"
  /\ ExtractionResult.email_role_based result
     = ["info@example.co.jp"; "support@example.co.jp"]
  /\ ExtractionResult.phone_main result = Some "+81312345678"
  /\ ExtractionResult.fax_main result = Some "+81398765432"
  /\ Py.get (ExtractionResult.sns result) "sns_linkedin"
     = Some "https://www.linkedin.com/company/example"
  /\ Py.get (ExtractionResult.sns result) "sns_x" = Some "https://x.com/example"
  /\ ExtractionResult.email_guessed result = []
  /\ ExtractionResult.evidence_sources result
     = ["https://example.co.jp"; "https://example.co.jp/contact";
        "https://www.linkedin.com/company/example"; "https://x.com/example"].
Proof. vm_compute. repeat split. Qed.

(** C4 as stated fails: the guesses for [www.example.co.jp] are made at
    that host, not at the registrable domain [example.co.jp]. *)
Lemma guesses_are_not_at_registrable_domain :
  ~ @Extractor.guesses_against_registrable_domain Example.lib.
Proof.
  intro Hclaim.
  destruct (Hclaim [] official (Forall_nil _)) as [_ Hmain].
  vm_compute in Hmain. discriminate.
Qed.

(** C4 on a page without addresses. *)
Lemma guesses_on_example :
  ExtractionResult.email_guessed
    (@Extractor.extract_contact_info Example.lib [plain_page] official)
  = ["contact@www.example.co.jp"; "info@www.example.co.jp";
     "inquiry@www.example.co.jp"; "sales@www.example.co.jp";
     "support@www.example.co.jp"]
  /\ ExtractionResult.email_main
       (@Extractor.extract_contact_info Example.lib [plain_page] official)
     = Some "info@www.example.co.jp".
Proof.
  exact (@ExtractorFacts.guesses_against_netloc_when_no_email
           Example.lib [plain_page] official
           ltac:(constructor; [vm_compute; reflexivity | constructor])
           eq_refl).
Defined.

(** C7 as stated fails: of two LinkedIn anchors on one page the second
    is stored. *)
Lemma second_sns_anchor_is_stored :
  ~ @Extractor.sns_first_match_wins Example.lib.
Proof.
  intro Hclaim.
  pose proof (Hclaim [sns_page] official "sns_linkedin"
                     ["linkedin.com/company"; "linkedin.com/in"]
                     (or_introl eq_refl)) as Hget.
  vm_compute in Hget. discriminate.
Qed.

(** C7 on that page. *)
Lemma sns_on_example :
  Py.get (ExtractionResult.sns
            (@Extractor.extract_contact_info Example.lib [sns_page] official))
         "sns_linkedin"
  = Some "https://www.linkedin.com/in/ceo".
Proof.
  exact (@ExtractorFacts.sns_first_page_last_anchor_wins
           Example.lib [sns_page] official "sns_linkedin"
           ["linkedin.com/company"; "linkedin.com/in"] (or_introl eq_refl)).
Defined.

(** C8 as stated fails: of two role-based mailto anchors, [sales@] then
    [info@], the second becomes [email_main]. *)
Lemma second_scanned_email_is_main :
  ~ @Extractor.email_main_first_in_scan_order Example.lib.
Proof.
  intro Hclaim.
  pose proof (Hclaim (ExtractionResult.empty, []) mail_page eq_refl) as Hmain.
  vm_compute in Hmain. discriminate.
Qed.

(** C8 on that page. *)
Lemma email_main_on_example :
  exists m,
    ExtractionResult.email_main
      (fst (@Extractor.scan_page Example.lib (ExtractionResult.empty, []) mail_page))
    = Some m
    /\ In m ["sales@example.co.jp"; "info@example.co.jp"]
    /\ @Extractor._is_role_email Example.lib m = true
    /\ forall r', In r' ["sales@example.co.jp"; "info@example.co.jp"] ->
                  @Extractor._is_role_email Example.lib r' = true ->
                  String.leb m r' = true.
Proof.
  exact (proj1 (proj2 (@ExtractorFacts.email_main_is_least_address_of_page
                         Example.lib (ExtractionResult.empty, []) mail_page)
                      eq_refl)
               "sales@example.co.jp" (or_introl eq_refl) eq_refl).
Defined.

(** C9 as stated fails: without pages the evidence holds the five
    guessed addresses, none of which is a URL tied to a fact. *)
Lemma guessed_address_in_evidence :
  ~ @Extractor.evidence_only_fact_urls Example.lib.
Proof.
  intro Hclaim.
  destruct (Hclaim [] official "info@www.example.co.jp"
                   ltac:(vm_compute; tauto))
    as [Hform | [(p & [] & _) | (key & Hsns)]].
  - vm_compute in Hform. discriminate.
  - vm_compute in Hsns. discriminate.
Qed.

(** C9 on the same input. *)
Lemma evidence_on_example :
  @Extractor.fact_url Example.lib []
    (@Extractor.extract_contact_info Example.lib [] official)
    "info@www.example.co.jp"
  \/ In "info@www.example.co.jp"
        (ExtractionResult.email_guessed
           (@Extractor.extract_contact_info Example.lib [] official)).
Proof.
  exact (@ExtractorFacts.evidence_is_fact_url_or_guess
           Example.lib [] official "info@www.example.co.jp"
           ltac:(vm_compute; tauto)).
Defined.


End Checks.

(* ================================================================== *)
(** * Further properties *)

(* ------------------------------------------------------------------ *)
(** ** Selector, further *)

Module SelectorMore.
Import Selector More.

Section WithLib.
Context `{PyLib}.

Lemma keep_all_chars (f : ascii -> bool) (s : string) :
  all_chars f (Py.keep f s) = true.
Proof.
  induction s as [|c s IH]; simpl; [reflexivity|].
  destruct (f c) eqn:E; simpl; [rewrite E|]; assumption.
Qed.

(** X1.  Whatever the company name, its normalized form holds only
    lower-case ASCII letters and digits. *)
Theorem normalized_name_is_lower_alnum :
  forall name : string,
    all_chars Py.is_lower_alnum (_normalize_company_name name) = true.
Proof. intro name. apply keep_all_chars. Qed.

(** X2.  Every score lies between -2 and 11.5. *)
Theorem score_candidate_bounds :
  forall (normalized_name : string) (page : PageContent.t),
    (-2 <= _score_candidate normalized_name page)%Q
    /\ (_score_candidate normalized_name page <= 23 # 2)%Q.
Proof.
  intros normalized_name page. unfold _score_candidate, OFFICIAL_KEYWORDS.
  cbn [fold_left].
  repeat match goal with
         | |- context [if ?b then _ else _] => destruct b
         end;
    split; vm_compute; discriminate.
Qed.

Section WithFetcher.
Context {World : Type} (fetch : Fetcher World).

Lemma well_formed_pick_more_calls (n : string) (all : list SearchResult.t)
      (calls more : Log) (c : SiteCandidate) :
  well_formed_pick n all calls c -> well_formed_pick n all (calls ++ more) c.
Proof.
  intros (Hin & Hurl & page & Hpage & Hscore & Hcall).
  split; [assumption|]. split; [assumption|].
  exists page. repeat split; auto. apply in_or_app. now left.
Qed.

Lemma select_loop_well_formed (n : string) (all cands : list SearchResult.t) :
  (forall x, In x cands -> In x all) ->
  forall best w calls,
    (forall c, best = Some c -> well_formed_pick n all calls c) ->
    forall c,
      fst (select_loop (logged fetch) n cands best (w, calls)) = Some c ->
      well_formed_pick n all
        (snd (snd (select_loop (logged fetch) n cands best (w, calls)))) c.
Proof.
  induction cands as [|x cands IH]; intros Hsub best w calls Hbest c; simpl.
  - apply Hbest.
  - assert (Hsub' : forall y, In y cands -> In y all)
      by (intros y Hy; apply Hsub; now right).
    destruct (Py.nonempty (SearchResult.url x)) eqn:Hurl; simpl;
      [|now apply IH].
    destruct (fetch (SearchResult.url x) w) as [[pg|] w'] eqn:Hf; simpl.
    + apply IH; [assumption|].
      assert (Hnew : well_formed_pick n all
                       (calls ++ [(SearchResult.url x, Some pg)])
                       (mk x (Some pg) (_score_candidate n pg))).
      { split; [apply Hsub; now left|]. split; [assumption|].
        exists pg. repeat split. apply in_or_app. right. now left. }
      intros c' Hc'. destruct best as [b|].
      * destruct (Qltb (score b) (_score_candidate n pg));
          injection Hc' as <-; [assumption|].
        apply well_formed_pick_more_calls. now apply Hbest.
      * injection Hc' as <-. assumption.
    + apply IH; [assumption|].
      intros c' Hc'. apply well_formed_pick_more_calls. now apply Hbest.
Qed.

(** X3.  What [select] returns is one of the candidates supplied, with a
    non-empty URL, together with a page that a fetch of that URL returned
    during the run and with the score of that page; its page is never
    absent. *)
Theorem selected_candidate_is_a_fetched_input :
  forall (company_name : string) (candidates : list SearchResult.t) (w : World)
         (c : SiteCandidate),
    fst (select (logged fetch) company_name candidates (w, [])) = Some c ->
    well_formed_pick (_normalize_company_name company_name) candidates
      (snd (snd (select (logged fetch) company_name candidates (w, [])))) c.
Proof.
  intros name cands w c. unfold select.
  apply select_loop_well_formed; [auto|discriminate].
Qed.

End WithFetcher.
End WithLib.
End SelectorMore.

(* ------------------------------------------------------------------ *)
(** ** Crawler, further *)

Module CrawlerMore.
Import Crawler More CrawlerFacts.

Section Generic.
Context `{PyLib} {World : Type} (fetch : Fetcher World) (settings : Settings.t).

(** What an iteration pushes comes from a link of the page fetched for
    the entry it took, whose depth is below the depth limit. *)
Lemma step_links_In (base_host : string) (s : State World) (p : Push) :
  In p (map snd (step_links fetch settings base_host s)) ->
  exists url depth rest page a,
    queue s = (url, depth) :: rest
    /\ depth < Settings.crawler_max_depth settings
    /\ p = link_push base_host page depth a.
Proof.
  unfold step_links.
  destruct (queue s) as [|[url depth] rest]; [intros []|].
  destruct (negb _); [intros []|].
  destruct (Py.elem _ _); [intros []|].
  destruct (fst (fetch url (world s))) as [page|]; [|intros []].
  destruct (depth >=? Settings.crawler_max_depth settings) eqn:Hd; [intros []|].
  rewrite map_map. simpl. intro Hin. apply in_map_iff in Hin.
  destruct Hin as (a & <- & _).
  exists url, depth, rest, page, a. split; [reflexivity|]. split; [|reflexivity].
  destruct (Z.geb_spec depth (Settings.crawler_max_depth settings)); [discriminate|lia].
Qed.

Lemma pushed_entries (ps : list Push) (q : list (string * Z)) (e : string * Z) :
  In e (fold_left push ps q) ->
  In e q \/ exists p, In p ps /\ push_entry p = Some e.
Proof.
  rewrite push_all. intro Hin.
  apply in_app_or in Hin. destruct Hin as [Hin | Hin].
  - apply in_rev in Hin. unfold left_entries in Hin. apply in_flat_map in Hin.
    destruct Hin as (p & Hp & He). right. exists p. split; [assumption|].
    destruct p; simpl in *; try contradiction. destruct He as [<-|[]]. reflexivity.
  - apply in_app_or in Hin. destruct Hin as [Hin | Hin]; [now left|].
    unfold right_entries in Hin. apply in_flat_map in Hin.
    destruct Hin as (p & Hp & He). right. exists p. split; [assumption|].
    destruct p; simpl in *; try contradiction. destruct He as [<-|[]]. reflexivity.
Qed.

Lemma link_push_depth (base_host : string) (page : PageContent.t) (depth : Z)
      (a : Anchor) (e : string * Z) :
  push_entry (link_push base_host page depth a) = Some e -> snd e = depth + 1.
Proof.
  unfold link_push.
  repeat match goal with
         | |- context [if ?b then _ else _] => destruct b
         end; simpl; try discriminate; intro Heq; injection Heq as <-; reflexivity.
Qed.

Lemma step_keeps_depths (base_host : string) (s s' : State World) :
  Forall (depth_in_range settings) (queue s) ->
  step fetch settings base_host s = Some s' ->
  Forall (depth_in_range settings) (queue s').
Proof.
  intros Hq Hs.
  destruct (step_inv _ _ _ _ Hs) as (url & depth & rest & Hqs & _ & Hq' & _).
  rewrite Hqs in Hq. inversion Hq as [|? ? Hhead Hrest]; subst.
  rewrite Hq'. apply Forall_forall. intros e He.
  apply pushed_entries in He. destruct He as [He | (p & Hp & He)].
  - rewrite Forall_forall in Hrest. now apply Hrest.
  - apply step_links_In in Hp.
    destruct Hp as (url' & depth' & rest' & page & a & Hqs' & Hlt & ->).
    rewrite Hqs in Hqs'. injection Hqs' as <- <- <-.
    apply link_push_depth in He.
    unfold depth_in_range in *. simpl in Hhead. lia.
Qed.

Lemma dequeued_depths (base_host : string) (n : nat) :
  forall s : State World,
    Forall (depth_in_range settings) (queue s) ->
    Forall (depth_in_range settings) (dequeued fetch settings n base_host s).
Proof.
  induction n as [|n IH]; intros s Hq; simpl; [constructor|].
  destruct (step fetch settings base_host s) as [s'|] eqn:Hs; [|constructor].
  destruct (queue s) as [|e rest] eqn:Hqs; [constructor|].
  constructor.
  - now inversion Hq.
  - apply IH. eapply step_keeps_depths; [|eassumption]. now rewrite Hqs.
Qed.

(** X6.  No entry taken from the queue lies deeper than the depth limit:
    the depth of every entry a crawl takes is between 0 and
    [crawler_max_depth] (0 when the limit is negative). *)
Theorem crawl_respects_depth_limit :
  forall (n : nat) (base_url : string) (w : World),
    Forall (depth_in_range settings)
           (dequeued fetch settings n (netloc (urlparse base_url))
                     (initial base_url w)).
Proof.
  intros n base_url w. apply dequeued_depths.
  constructor; [|constructor]. unfold depth_in_range. simpl. lia.
Qed.

(** X7.  When the fetch of the start URL fails, the crawl returns, and
    returns no page. *)
Theorem crawl_of_unreachable_start_is_empty :
  forall (base_url : string) (w w1 : World),
    fetch base_url w = (None, w1) ->
    (exists fuel out, crawl fetch settings fuel base_url w = Some out)
    /\ forall fuel pages w',
        crawl fetch settings fuel base_url w = Some (pages, w') -> pages = [].
Proof.
  intros base_url w w1 Hfetch. split.
  - destruct (crawl_loop_terminates fetch settings (netloc (urlparse base_url))
                (initial base_url w)) as (fuel & s' & Hrun).
    exists fuel, (results s', world s'). unfold crawl. now rewrite Hrun.
  - intros fuel pages w'. unfold crawl.
    destruct (crawl_loop fetch settings fuel _ _) as [s'|] eqn:Hrun; [|discriminate].
    intro Heq. injection Heq as <- _.
    assert (Hinit : results (initial base_url w) = []
                    /\ (queue (initial base_url w) = []
                        \/ initial base_url w = initial base_url w)) by auto.
    refine (proj1 (proj1 (@crawl_loop_invariant _ _ fetch settings
             (fun s => results s = [] /\ (queue s = [] \/ s = initial base_url w))
             (netloc (urlparse base_url)) _ fuel _ _ Hinit Hrun))).
    intros s1 s2 [Hr [Hq | ->]] Hs.
    + assert (Hnone : step fetch settings (netloc (urlparse base_url)) s1 = None)
        by (apply step_none; now left).
      congruence.
    + destruct (step_inv _ _ _ _ Hs) as (url & depth & rest & Hqs & _ & Hq' & Hcase).
      simpl in Hqs. injection Hqs as <- <- <-.
      destruct Hcase as [(Hv & _) | (_ & _ & _ & Hres)]; [discriminate|].
      simpl in Hres. rewrite Hfetch in Hres. simpl in Hres.
      split; [assumption|]. left. rewrite Hq'.
      unfold step_links. simpl.
      destruct (negb _); [reflexivity|]. rewrite Hfetch. reflexivity.
Qed.

End Generic.

Section WithFetcher.
Context `{PyLib} {World : Type} (fetch : Fetcher World) (settings : Settings.t).

Lemma successes_app (l1 l2 : Log) : successes (l1 ++ l2) = successes l1 ++ successes l2.
Proof. apply flat_map_app. Qed.

Lemma logged_call (url : string) (w : World) (calls : Log) :
  logged fetch url (w, calls)
  = (fst (fetch url w), (snd (fetch url w), calls ++ [(url, fst (fetch url w))])).
Proof. unfold logged. now destruct (fetch url w). Qed.

(** The final state of a run from the initial state keeps an invariant of
    the iterations. *)
Lemma crawl_invariant (P : State (World * Log) -> Prop) (base_url : string) (w : World) :
  P (initial base_url (w, [])) ->
  (forall s s', P s ->
                step (logged fetch) settings (netloc (urlparse base_url)) s = Some s' ->
                P s') ->
  forall fuel pages w' calls,
    crawl (logged fetch) settings fuel base_url (w, []) = Some (pages, (w', calls)) ->
    exists s, P s /\ results s = pages /\ world s = (w', calls).
Proof.
  intros Hinit Hstep fuel pages w' calls. unfold crawl.
  destruct (crawl_loop (logged fetch) settings fuel _ _) as [s|] eqn:Hrun;
    [|discriminate].
  intro Heq. injection Heq as Hr Hw.
  exists s. split; [|now split].
  exact (proj1 (@crawl_loop_invariant _ _ (logged fetch) settings P _ Hstep
                  fuel _ _ Hinit Hrun)).
Qed.

Lemma step_results_are_successes (base_host : string) (s s' : State (World * Log)) :
  results_are_successes s ->
  step (logged fetch) settings base_host s = Some s' ->
  results_are_successes s'.
Proof.
  unfold results_are_successes. intros Hinv Hs.
  destruct (step_inv _ _ _ _ Hs) as (url & depth & rest & _ & _ & _ & Hcase).
  destruct Hcase as [(_ & _ & Hr & Hw) | (_ & _ & Hw & Hr)].
  - now rewrite Hr, Hw.
  - rewrite Hw. destruct (world s) as [w calls]. rewrite logged_call in Hr |- *.
    simpl in *. rewrite successes_app. simpl.
    destruct (fst (fetch url w)); rewrite Hr, Hinv; simpl.
    + reflexivity.
    + now rewrite app_nil_r.
Qed.

(** X4.  The pages a crawl returns are exactly the pages of its
    successful fetch calls, in the order of the calls. *)
Theorem crawl_returns_successful_fetches_in_order :
  forall (fuel : nat) (base_url : string) (w w' : World)
         (pages : list PageContent.t) (calls : Log),
    crawl (logged fetch) settings fuel base_url (w, []) = Some (pages, (w', calls)) ->
    pages = successes calls.
Proof.
  intros fuel base_url w w' pages calls Hcrawl.
  destruct (crawl_invariant results_are_successes base_url w
              eq_refl (step_results_are_successes _) _ Hcrawl)
    as (s & Hinv & <- & Hw).
  unfold results_are_successes in Hinv. now rewrite Hinv, Hw.
Qed.




Lemma step_start_only (base_url : string) (s s' : State (World * Log)) :
  Settings.crawler_max_depth settings <= 0 ->
  start_only base_url s ->
  step (logged fetch) settings (netloc (urlparse base_url)) s = Some s' ->
  start_only base_url s'.
Proof.
  intros Hdepth Hinv Hs.
  destruct Hinv as [(Hq & Hv & Hr & Hc) | (Hq & _)].
  - destruct (step_inv _ _ _ _ Hs) as (url & depth & rest & Hqs & _ & Hq' & Hcase).
    rewrite Hq in Hqs. injection Hqs as <- <- <-.
    right. split.
    + rewrite Hq'. unfold step_links. rewrite Hq.
      destruct (negb _); [reflexivity|].
      destruct (Py.elem _ _); [reflexivity|].
      destruct (fst _); [|reflexivity].
      destruct (Z.geb_spec 0 (Settings.crawler_max_depth settings)); [reflexivity|lia].
    + destruct Hcase as [(_ & _ & Hres & Hw) | (_ & _ & Hw & Hres)].
      * rewrite Hres, Hr, Hw, Hc. split; [simpl; lia|now left].
      * rewrite Hw. destruct (world s) as [w calls]. simpl in Hc. subst calls.
        rewrite logged_call in Hres |- *. simpl in *. split.
        -- destruct (fst (fetch base_url w)); rewrite Hres, Hr; simpl; lia.
        -- right. eexists. reflexivity.
  - assert (Hnone : step (logged fetch) settings (netloc (urlparse base_url)) s = None)
      by (apply step_none; now left).
    congruence.
Qed.

(** X8.  With a depth limit of 0 or less no link is followed: the crawl
    fetches the start URL at most once and nothing else, and returns at
    most one page. *)
Theorem crawl_without_depth_fetches_only_start :
  forall (fuel : nat) (base_url : string) (w w' : World)
         (pages : list PageContent.t) (calls : Log),
    Settings.crawler_max_depth settings <= 0 ->
    crawl (logged fetch) settings fuel base_url (w, []) = Some (pages, (w', calls)) ->
    (calls = [] \/ exists r, calls = [(base_url, r)])
    /\ (length pages <= 1)%nat.
Proof.
  intros fuel base_url w w' pages calls Hdepth Hcrawl.
  assert (Hinit : start_only base_url (initial base_url (w, [])))
    by (left; repeat split).
  destruct (crawl_invariant (start_only base_url) base_url w
              Hinit ltac:(intros s1 s2; now apply step_start_only) _ Hcrawl)
    as (s & Hinv & <- & Hw).
  destruct Hinv as [(Hq & Hv & Hr & Hc) | (Hq & Hlen & Hc)]; rewrite Hw in Hc; simpl in Hc.
  - split; [now left|]. rewrite Hr. simpl. lia.
  - split; assumption.
Qed.

End WithFetcher.
End CrawlerMore.

(* ------------------------------------------------------------------ *)
(** ** Extractor, further *)

Module ExtractorMore.
Import ExtractionResult Extractor More ExtractorFacts.

Section WithLib.
Context `{PyLib}.

(** *** Fields that are assigned once *)

Lemma truthy_opt_truthy (o : option string) (x : string) :
  truthy_opt o = Some x -> o = Some x /\ Py.truthy (Some x) = true.
Proof.
  unfold truthy_opt. destruct (Py.truthy o) eqn:E; [|discriminate].
  intros ->. now split.
Qed.

Lemma truthy_opt_none (o : option string) :
  truthy_opt o = None -> Py.truthy o = false.
Proof.
  unfold truthy_opt. destruct (Py.truthy o) eqn:E; [|reflexivity].
  intros ->. discriminate.
Qed.

(** A field that each page sets to its own value unless the field is
    already truthy holds, after the loop, the value of the first page that
    has one. *)
Lemma assign_once_fold (f : Acc -> option string)
      (v : PageContent.t -> option string) :
  (forall acc page,
      f (scan_page acc page)
      = if Py.truthy (f acc) then f acc
        else match v page with Some x => Some x | None => f acc end) ->
  (forall page x, v page = Some x -> Py.truthy (Some x) = true) ->
  forall pages acc,
    f acc = None \/ Py.truthy (f acc) = true ->
    f (fold_left scan_page pages acc)
    = match f acc with Some x => Some x | None => first_some v pages end.
Proof.
  intros Hstep Hv. induction pages as [|page pages IH]; intros acc Hacc; simpl.
  - now destruct (f acc).
  - rewrite IH; rewrite Hstep.
    + destruct Hacc as [Hnone | Htrue].
      * rewrite Hnone. simpl. now destruct (v page).
      * rewrite Htrue. destruct (f acc); [reflexivity|discriminate].
    + destruct Hacc as [Hnone | Htrue].
      * rewrite Hnone. simpl. destruct (v page) eqn:Hp; [|now left].
        right. eapply Hv; eassumption.
      * rewrite Htrue. now right.
Qed.

Lemma scan_page_contact_form_url (acc : Acc) (page : PageContent.t) :
  contact_form_url (fst (scan_page acc page))
  = if Py.truthy (contact_form_url (fst acc)) then contact_form_url (fst acc)
    else match page_contact_link page with
         | Some x => Some x
         | None => contact_form_url (fst acc)
         end.
Proof.
  unfold scan_page, page_contact_link.
  set (soup := BeautifulSoup (PageContent.html page)).
  destruct (scan_sns_frame
              (scan_phone_fax (scan_emails (scan_contact_link acc soup page) soup page)
                              soup page) soup page) as (-> & _).
  destruct (scan_phone_fax_frame
              (scan_emails (scan_contact_link acc soup page) soup page) soup page)
    as (-> & _).
  destruct (scan_emails_frame (scan_contact_link acc soup page) soup page)
    as (-> & _).
  unfold scan_contact_link, truthy_opt. destruct acc as [e ev]. simpl.
  destruct (Py.truthy (contact_form_url e)); simpl; [reflexivity|].
  destruct (_find_contact_link soup (PageContent.url page)) as [link|]; simpl;
    [|reflexivity].
  destruct (Py.nonempty link); reflexivity.
Qed.

Lemma scan_phone_fax_phone_part (acc : Acc) (soup : Soup) (page : PageContent.t) :
  phone_part (fst (scan_phone_fax acc soup page))
  = (once (fst (_extract_phone_fax soup)) (phone_main (fst acc)),
     once (snd (_extract_phone_fax soup)) (fax_main (fst acc))).
Proof.
  unfold scan_phone_fax, phone_part, once. destruct acc as [e ev].
  destruct (_extract_phone_fax soup) as [phone fax]. simpl.
  destruct (Py.truthy phone && negb (Py.truthy (phone_main e))); simpl;
    destruct (Py.truthy fax && negb (Py.truthy (fax_main e))); reflexivity.
Qed.

Lemma scan_page_phone_part (acc : Acc) (page : PageContent.t) :
  phone_part (fst (scan_page acc page))
  = (once (fst (_extract_phone_fax (BeautifulSoup (PageContent.html page))))
          (phone_main (fst acc)),
     once (snd (_extract_phone_fax (BeautifulSoup (PageContent.html page))))
          (fax_main (fst acc))).
Proof.
  unfold scan_page.
  set (soup := BeautifulSoup (PageContent.html page)).
  destruct (scan_sns_frame
              (scan_phone_fax (scan_emails (scan_contact_link acc soup page) soup page)
                              soup page) soup page) as (_ & _ & ->).
  rewrite scan_phone_fax_phone_part.
  destruct (scan_emails_frame (scan_contact_link acc soup page) soup page)
    as (_ & _ & He & _).
  destruct (scan_contact_link_frame acc soup page) as (_ & Hc & _).
  rewrite Hc in He. unfold phone_part in He. injection He as -> ->.
  reflexivity.
Qed.

Lemma scan_page_phone_main (acc : Acc) (page : PageContent.t) :
  phone_main (fst (scan_page acc page))
  = if Py.truthy (phone_main (fst acc)) then phone_main (fst acc)
    else match page_phone page with
         | Some x => Some x
         | None => phone_main (fst acc)
         end.
Proof.
  pose proof (scan_page_phone_part acc page) as Hpart.
  unfold phone_part in Hpart. injection Hpart as -> _.
  unfold page_phone, truthy_opt, once.
  destruct (Py.truthy (fst _)) eqn:Hnew;
    destruct (Py.truthy (phone_main (fst acc))) eqn:Hold; simpl; try reflexivity.
  destruct (fst _); [reflexivity|discriminate].
Qed.

Lemma scan_page_fax_main (acc : Acc) (page : PageContent.t) :
  fax_main (fst (scan_page acc page))
  = if Py.truthy (fax_main (fst acc)) then fax_main (fst acc)
    else match page_fax page with
         | Some x => Some x
         | None => fax_main (fst acc)
         end.
Proof.
  pose proof (scan_page_phone_part acc page) as Hpart.
  unfold phone_part in Hpart. injection Hpart as _ ->.
  unfold page_fax, truthy_opt, once.
  destruct (Py.truthy (snd _)) eqn:Hnew;
    destruct (Py.truthy (fax_main (fst acc))) eqn:Hold; simpl; try reflexivity.
  destruct (snd _); [reflexivity|discriminate].
Qed.

Lemma fax_main_first_page (pages : list PageContent.t) (base_url : string) :
  fax_main (extract_contact_info pages base_url) = first_some page_fax pages.
Proof.
  unfold extract_contact_info.
  destruct (finish_frame (fold_left scan_page pages (empty, []))
                         (netloc (urlparse base_url))) as (_ & _ & Hp).
  unfold phone_part in Hp. injection Hp as _ ->.
  apply (assign_once_fold (fun acc => fax_main (fst acc)) page_fax
           scan_page_fax_main).
  - intros page x Hx. now apply truthy_opt_truthy in Hx.
  - now left.
Qed.

(** X9.  The contact-form URL, the phone number and the fax number are
    each assigned once: the result holds, for each, the value of the first
    page in the order supplied that yields a non-empty one, and no later
    page replaces it. *)
Theorem first_page_wins_for_contact_phone_fax :
  forall (pages : list PageContent.t) (base_url : string),
    contact_form_url (extract_contact_info pages base_url)
    = first_some page_contact_link pages
    /\ phone_main (extract_contact_info pages base_url)
       = first_some page_phone pages
    /\ fax_main (extract_contact_info pages base_url)
       = first_some page_fax pages.
Proof.
  intros pages base_url. split; [|split; [|apply fax_main_first_page]].
  - unfold extract_contact_info.
    destruct (finish_frame (fold_left scan_page pages (empty, []))
                           (netloc (urlparse base_url))) as (-> & _).
    apply (assign_once_fold (fun acc => contact_form_url (fst acc)) page_contact_link
             scan_page_contact_form_url).
    + intros page x Hx. now apply truthy_opt_truthy in Hx.
    + now left.
  - unfold extract_contact_info.
    destruct (finish_frame (fold_left scan_page pages (empty, []))
                           (netloc (urlparse base_url))) as (_ & _ & Hp).
    unfold phone_part in Hp. injection Hp as -> _.
    apply (assign_once_fold (fun acc => phone_main (fst acc)) page_phone
             scan_page_phone_main).
    + intros page x Hx. now apply truthy_opt_truthy in Hx.
    + now left.
Qed.

(** *** No fallback for the fax number *)

Lemma scan_snippets_without_fax (snippets : list string) :
  Forall (fun snippet => has_fax_marker snippet = false) snippets ->
  forall st, snd (fold_left scan_snippet snippets st) = snd st.
Proof.
  induction 1 as [|snippet snippets Hno _ IH]; intro st; simpl; [reflexivity|].
  rewrite IH. unfold scan_snippet. destruct st as [phone fax].
  unfold has_fax_marker in Hno. rewrite Hno.
  destruct (Py.any_in _ snippet); [|reflexivity].
  destruct (Py.truthy (_normalize_phone snippet)); reflexivity.
Qed.

Lemma page_without_fax_marker (page : PageContent.t) :
  Forall (fun snippet => has_fax_marker snippet = false)
         (text_snippets (BeautifulSoup (PageContent.html page))) ->
  page_fax page = None.
Proof.
  intro Hno. unfold page_fax, _extract_phone_fax.
  fold (text_snippets (BeautifulSoup (PageContent.html page))).
  pose proof (scan_snippets_without_fax Hno (None, None)) as Hsnd.
  destruct (fold_left scan_snippet _ (None, None)) as [phone fax].
  simpl in *. now subst fax.
Qed.

(** X10.  The fax number has no fallback: when no text fragment of any
    page carries a fax marker, [fax_main] stays unset, whatever phone
    numbers the pattern sweep finds. *)
Theorem no_fax_without_fax_marker :
  forall (pages : list PageContent.t) (base_url : string),
    Forall (fun page =>
              Forall (fun snippet => has_fax_marker snippet = false)
                     (text_snippets (BeautifulSoup (PageContent.html page))))
           pages ->
    fax_main (extract_contact_info pages base_url) = None.
Proof.
  intros pages base_url Hno. rewrite fax_main_first_page.
  induction Hno as [|page pages Hpage _ IH]; simpl; [reflexivity|].
  now rewrite (page_without_fax_marker _ Hpage).
Qed.

(** *** Where the addresses come from *)

Lemma scan_emails_congr (acc1 acc2 : Acc) (soup : Soup) (page : PageContent.t) :
  email_part (fst acc1) = email_part (fst acc2) ->
  email_part (fst (scan_emails acc1 soup page))
  = email_part (fst (scan_emails acc2 soup page)).
Proof.
  destruct acc1 as [[c1 m1 r1 g1 p1 f1 s1 v1] ev1].
  destruct acc2 as [[c2 m2 r2 g2 p2 f2 s2 v2] ev2].
  unfold email_part. simpl. intros [= -> -> ->].
  unfold scan_emails. simpl.
  destruct (filter _is_role_email (_extract_emails_from_page soup)); simpl;
    [destruct (_extract_emails_from_page soup); simpl|];
    destruct (negb (Py.truthy m2)); reflexivity.
Qed.

Lemma scan_page_email_part (acc : Acc) (page : PageContent.t) :
  email_part (fst (scan_page acc page))
  = email_part
      (fst (scan_emails acc (BeautifulSoup (PageContent.html page)) page)).
Proof.
  unfold scan_page.
  set (soup := BeautifulSoup (PageContent.html page)).
  destruct (scan_sns_frame
              (scan_phone_fax (scan_emails (scan_contact_link acc soup page) soup page)
                              soup page) soup page) as (_ & -> & _).
  destruct (scan_phone_fax_frame
              (scan_emails (scan_contact_link acc soup page) soup page) soup page)
    as (_ & -> & _).
  apply scan_emails_congr.
  now destruct (scan_contact_link_frame acc soup page) as (-> & _).
Qed.

Lemma scan_emails_role_based (acc : Acc) (soup : Soup) (page : PageContent.t) :
  email_role_based (fst (scan_emails acc soup page))
  = email_role_based (fst acc)
    ++ filter _is_role_email (_extract_emails_from_page soup).
Proof.
  unfold scan_emails. destruct acc as [e ev]. simpl.
  destruct (filter _is_role_email (_extract_emails_from_page soup)); simpl.
  - rewrite app_nil_r.
    destruct (_extract_emails_from_page soup); simpl; [reflexivity|].
    destruct (negb (Py.truthy (email_main e))); reflexivity.
  - destruct (negb (Py.truthy (email_main e))); reflexivity.
Qed.

Lemma extracted_scanned (pages : list PageContent.t) (page : PageContent.t)
      (x : string) :
  In page pages ->
  In x (_extract_emails_from_page (BeautifulSoup (PageContent.html page))) ->
  scanned_on pages x.
Proof.
  intros Hpage Hx. exists page. split; [assumption|].
  now apply (proj1 (PyFacts.sorted_set_In _ _)) in Hx.
Qed.

Lemma scan_page_emails_inv (pages : list PageContent.t) (acc : Acc)
      (page : PageContent.t) :
  In page pages -> emails_inv pages acc -> emails_inv pages (scan_page acc page).
Proof.
  intros Hpage (Hg & Hr & Hm).
  pose proof (scan_page_email_part acc page) as Hpart.
  set (soup := BeautifulSoup (PageContent.html page)) in *.
  unfold email_part in Hpart. injection Hpart as Hmain Hrole Hguess.
  unfold emails_inv. rewrite Hmain, Hrole, Hguess. clear Hmain Hrole Hguess.
  split; [|split].
  - destruct (scan_emails_frame acc soup page) as (_ & -> & _). exact Hg.
  - rewrite scan_emails_role_based. apply Forall_app. split; [exact Hr|].
    apply Forall_forall. intros x Hx. apply filter_In in Hx.
    destruct Hx as [Hx Hrole]. split; [exact Hrole|].
    eapply extracted_scanned; eassumption.
  - rewrite scan_emails_main.
    destruct (Py.truthy (email_main (fst acc))); [exact Hm|].
    destruct (filter _is_role_email (_extract_emails_from_page soup))
      as [|first rest] eqn:Hroles.
    + destruct (_extract_emails_from_page soup) as [|first rest] eqn:Hall;
        [exact Hm|].
      apply (extracted_scanned pages page first Hpage).
      fold soup. rewrite Hall. now left.
    + apply (extracted_scanned pages page first Hpage).
      assert (Hin : In first (filter _is_role_email (_extract_emails_from_page soup)))
        by (rewrite Hroles; now left).
      apply filter_In in Hin. exact (proj1 Hin).
Qed.

Lemma scan_pages_emails_inv (pages : list PageContent.t) :
  forall (scanned : list PageContent.t) (acc : Acc),
    incl scanned pages ->
    emails_inv pages acc ->
    emails_inv pages (fold_left scan_page scanned acc).
Proof.
  induction scanned as [|page scanned IH]; intros acc Hincl Hinv; simpl;
    [exact Hinv|].
  apply IH.
  - intros p Hp. apply Hincl. now right.
  - apply scan_page_emails_inv; [apply Hincl; now left|exact Hinv].
Qed.

Lemma Forall_sorted_set (P : string -> Prop) (l : list string) :
  Forall P l -> Forall P (Py.sorted_set l).
Proof.
  intro Hl. apply Forall_forall. intros x Hx.
  apply (proj1 (PyFacts.sorted_set_In _ _)) in Hx.
  revert x Hx. now apply Forall_forall.
Qed.

(** X11.  Where the addresses of a result come from.  Every role-based
    address passes the role test and was collected on one of the pages;
    every guessed address is one of the five guesses for the network
    location of the start URL; the main address, when set, was collected on
    a page or is one of the guesses kept; and the result never holds both
    role-based and guessed addresses. *)
Theorem addresses_are_scanned_or_guessed :
  forall (pages : list PageContent.t) (base_url : string),
    emails_accounted_for pages base_url (extract_contact_info pages base_url)
    /\ (email_role_based (extract_contact_info pages base_url) = []
        \/ email_guessed (extract_contact_info pages base_url) = []).
Proof.
  intros pages base_url. unfold extract_contact_info, emails_accounted_for.
  assert (Hinv : emails_inv pages (fold_left scan_page pages (empty, []))).
  { apply scan_pages_emails_inv; [apply incl_refl|].
    unfold emails_inv. simpl. auto. }
  destruct (fold_left scan_page pages (empty, [])) as [[c m r g p f s v] ev].
  unfold emails_inv in Hinv. simpl in Hinv. destruct Hinv as (-> & Hr & Hm).
  unfold finish. simpl.
  destruct (Py.some r) eqn:Hsome; simpl; cycle 1.
  - assert (r = []) as -> by (destruct r; [reflexivity|discriminate]).
    set (guessed := _guess_role_emails (netloc (urlparse base_url))).
    assert (Hguessed : Forall (fun x => In x guessed) (Py.sorted_set guessed)).
    { apply Forall_sorted_set. apply Forall_forall. auto. }
    destruct (Py.some guessed && negb (Py.truthy m)) eqn:Hset; simpl.
    + split; [|now left]. split; [constructor|]. split; [exact Hguessed|].
      destruct (hd_error guessed) as [g0|] eqn:Hhd; [|exact I].
      right. apply (proj2 (PyFacts.sorted_set_In _ _)).
      destruct guessed as [|g1 gs]; [discriminate|].
      injection Hhd as ->. now left.
    + split; [|now left]. split; [constructor|]. split; [exact Hguessed|].
      destruct m; [now left|exact I].
  - split; [|now right]. split; [|split; [constructor|]].
    + now apply Forall_sorted_set.
    + destruct m; [now left|exact I].
Qed.

(** X12.  The three lists of a result are strictly increasing in the
    order of [sorted], hence free of duplicates: the role-based addresses,
    the guessed addresses and the evidence sources. *)
Theorem result_lists_are_sorted :
  forall (pages : list PageContent.t) (base_url : string),
    StronglySorted Py.lt (email_role_based (extract_contact_info pages base_url))
    /\ StronglySorted Py.lt (email_guessed (extract_contact_info pages base_url))
    /\ StronglySorted Py.lt (evidence_sources (extract_contact_info pages base_url)).
Proof.
  intros pages base_url. unfold extract_contact_info.
  destruct (fold_left scan_page pages (empty, [])) as [e ev].
  unfold finish.
  destruct (negb (Py.some (email_role_based e))); simpl;
    [destruct (Py.some _ && negb _); simpl|];
    repeat split; apply PyFacts.sorted_set_sorted.
Qed.

(** *** Where the SNS links come from *)

Lemma set_Forall (P : string * string -> Prop) (d : Py.dict) (k v : string) :
  Forall P d -> P (k, v) -> Forall P (Py.set d k v).
Proof.
  intros Hd Hnew. induction Hd as [|[k' v'] rest Hhead Hrest IH]; simpl.
  - constructor; [exact Hnew|constructor].
  - destruct (String.eqb k' k) eqn:Hk.
    + apply String.eqb_eq in Hk. subst k'. constructor; assumption.
    + constructor; assumption.
Qed.

Lemma scan_sns_anchor_from (pages : list PageContent.t) (page : PageContent.t)
      (a : Anchor) (results : Py.dict) :
  In page pages ->
  In a (anchors (BeautifulSoup (PageContent.html page))) ->
  Forall (sns_entry_from pages) results ->
  Forall (sns_entry_from pages) (scan_sns_anchor (PageContent.url page) results a).
Proof.
  intros Hpage Ha. unfold scan_sns_anchor.
  assert (Hincl : incl SNS_PATTERNS SNS_PATTERNS) by apply incl_refl.
  revert results Hincl. generalize SNS_PATTERNS at 1 3.
  induction l as [|[key patterns] table IH]; intros results Hincl Hres; simpl;
    [exact Hres|].
  apply IH; [intros x Hx; apply Hincl; now right|].
  destruct (sns_match patterns (urljoin (PageContent.url page) (href a)))
    eqn:Hmatch; [|exact Hres].
  apply set_Forall; [exact Hres|].
  exists patterns, page. simpl. split; [apply Hincl; now left|].
  split; [exact Hpage|].
  unfold sns_urls. apply filter_In. split; [|exact Hmatch].
  apply in_map_iff. now exists a.
Qed.

Lemma extract_sns_links_from (pages : list PageContent.t) (page : PageContent.t) :
  In page pages ->
  Forall (sns_entry_from pages)
         (_extract_sns_links (BeautifulSoup (PageContent.html page))
                             (PageContent.url page)).
Proof.
  intro Hpage. unfold _extract_sns_links.
  assert (Hincl : incl (anchors (BeautifulSoup (PageContent.html page)))
                       (anchors (BeautifulSoup (PageContent.html page))))
    by apply incl_refl.
  assert (Hnil : Forall (sns_entry_from pages) []) by constructor.
  revert Hincl Hnil. generalize (@nil (string * string)).
  generalize (anchors (BeautifulSoup (PageContent.html page))) at 1 3.
  induction l as [|a rest IH]; intros results Hincl Hres; simpl; [exact Hres|].
  apply IH; [intros x Hx; apply Hincl; now right|].
  apply scan_sns_anchor_from; [exact Hpage|apply Hincl; now left|exact Hres].
Qed.

Lemma merge_sns_from (pages : list PageContent.t) (items : list (string * string)) :
  Forall (sns_entry_from pages) items ->
  forall acc : Acc,
    Forall (sns_entry_from pages) (sns (fst acc)) ->
    Forall (sns_entry_from pages) (sns (fst (fold_left merge_sns_item items acc))).
Proof.
  induction 1 as [|[key value] items Hitem _ IH]; intros [e ev] Hacc; simpl;
    [exact Hacc|].
  apply IH. destruct (negb (Py.mem (sns e) key)); simpl; [|exact Hacc].
  now apply set_Forall.
Qed.

Lemma scan_page_sns_from (pages : list PageContent.t) (acc : Acc)
      (page : PageContent.t) :
  In page pages ->
  Forall (sns_entry_from pages) (sns (fst acc)) ->
  Forall (sns_entry_from pages) (sns (fst (scan_page acc page))).
Proof.
  intros Hpage Hacc. unfold scan_page.
  set (soup := BeautifulSoup (PageContent.html page)).
  unfold scan_sns. apply merge_sns_from; [now apply extract_sns_links_from|].
  destruct (scan_phone_fax_frame
              (scan_emails (scan_contact_link acc soup page) soup page) soup page)
    as (_ & _ & ->).
  destruct (scan_emails_frame (scan_contact_link acc soup page) soup page)
    as (_ & _ & _ & ->).
  now destruct (scan_contact_link_frame acc soup page) as (_ & _ & ->).
Qed.

Lemma scan_pages_sns_from (pages : list PageContent.t) :
  forall (scanned : list PageContent.t) (acc : Acc),
    incl scanned pages ->
    Forall (sns_entry_from pages) (sns (fst acc)) ->
    Forall (sns_entry_from pages) (sns (fst (fold_left scan_page scanned acc))).
Proof.
  induction scanned as [|page rest IH]; intros acc Hincl Hacc; simpl;
    [exact Hacc|].
  apply IH; [intros x Hx; apply Hincl; now right|].
  apply scan_page_sns_from; [apply Hincl; now left|exact Hacc].
Qed.

(** X13.  Every entry of the SNS dictionary of a result is accounted for
    by one of the pages: its key is a platform of the table, and its value
    is the absolute URL of an anchor of that page whose lower-cased form
    contains one of the platform's patterns. *)
Theorem sns_entries_come_from_page_anchors :
  forall (pages : list PageContent.t) (base_url : string),
    Forall (sns_entry_from pages) (sns (extract_contact_info pages base_url)).
Proof.
  intros pages base_url. unfold extract_contact_info.
  destruct (finish_frame (fold_left scan_page pages (empty, []))
                         (netloc (urlparse base_url))) as (_ & -> & _).
  apply scan_pages_sns_from; [apply incl_refl|constructor].
Qed.

End WithLib.
End ExtractorMore.

(* ------------------------------------------------------------------ *)
(** ** The update payload and the sheet *)

Module SheetFacts.
Import CompanyRow.

Lemma dict_get_set {V} (d : Dict.t V) (k f : string) (v : V) :
  Dict.get (Dict.set d k v) f
  = if String.eqb k f then Some v else Dict.get d f.
Proof.
  induction d as [|[k' v'] rest IH]; simpl.
  - reflexivity.
  - destruct (String.eqb k' k) eqn:Hk; simpl.
    + apply String.eqb_eq in Hk. subst k'.
      destruct (String.eqb k f); reflexivity.
    + destruct (String.eqb k' f) eqn:Hf; [|exact IH].
      apply String.eqb_eq in Hf. subst k'.
      rewrite String.eqb_sym in Hk. now rewrite Hk.
Qed.

Lemma get_none_iff {V} (d : Dict.t V) (k : string) :
  Dict.get d k = None <-> ~ In k (Dict.keys d).
Proof.
  induction d as [|[k' v'] rest IH]; simpl; [tauto|].
  destruct (String.eqb k' k) eqn:Hk.
  - apply String.eqb_eq in Hk. split; [discriminate|]. intro Hn. tauto.
  - apply String.eqb_neq in Hk. rewrite IH. tauto.
Qed.

Lemma keys_set {V} (d : Dict.t V) (k : string) (v : V) :
  Dict.keys (Dict.set d k v)
  = if Dict.mem d k then Dict.keys d else Dict.keys d ++ [k].
Proof.
  unfold Dict.mem. induction d as [|[k' v'] rest IH]; simpl; [reflexivity|].
  destruct (String.eqb k' k) eqn:Hk; simpl; [reflexivity|].
  rewrite IH. now destruct (Dict.get rest k).
Qed.

Lemma NoDup_keys_set {V} (d : Dict.t V) (k : string) (v : V) :
  NoDup (Dict.keys d) -> NoDup (Dict.keys (Dict.set d k v)).
Proof.
  intro Hd. rewrite keys_set. unfold Dict.mem.
  destruct (Dict.get d k) eqn:Hk; [exact Hd|].
  apply get_none_iff in Hk. apply CrawlerFacts.NoDup_snoc; assumption.
Qed.

(** The loop of [to_update_payload]. *)
Lemma payload_loop_get (updates : Dict.t (option string)) :
  NoDup (Dict.keys updates) ->
  forall (payload : Dict.t string) (field : string),
    Dict.get (fold_left payload_item updates payload) field
    = match (if Dict.mem SHEET_COLUMNS field then Dict.get updates field else None)
      with
      | Some value => Some (or_empty value)
      | None => Dict.get payload field
      end.
Proof.
  induction updates as [|[k v] rest IH]; intros Hnodup payload field; simpl.
  - now destruct (Dict.mem SHEET_COLUMNS field).
  - inversion Hnodup as [|? ? Hk Hrest]; subst.
    rewrite (IH Hrest). clear IH.
    destruct (String.eqb k field) eqn:Hkf.
    + apply String.eqb_eq in Hkf. subst field.
      apply get_none_iff in Hk. rewrite Hk.
      destruct (Dict.mem SHEET_COLUMNS k); simpl; [|reflexivity].
      rewrite dict_get_set. now rewrite String.eqb_refl.
    + destruct (Dict.mem SHEET_COLUMNS field); simpl.
      * destruct (Dict.get rest field); [reflexivity|].
        destruct (Dict.mem SHEET_COLUMNS k); simpl; [|reflexivity].
        rewrite dict_get_set. now rewrite Hkf.
      * destruct (Dict.mem SHEET_COLUMNS k); simpl; [|reflexivity].
        rewrite dict_get_set. now rewrite Hkf.
Qed.

Lemma payload_loop_NoDup (updates : Dict.t (option string)) :
  forall payload : Dict.t string,
    NoDup (Dict.keys payload) ->
    NoDup (Dict.keys (fold_left payload_item updates payload)).
Proof.
  induction updates as [|[k v] rest IH]; intros payload Hp; simpl; [exact Hp|].
  apply IH. destruct (negb (Dict.mem SHEET_COLUMNS k)); [exact Hp|].
  now apply NoDup_keys_set.
Qed.

(** X14.  What a payload holds.  Its keys are distinct; a field that is no
    column of the sheet is dropped; a column given in [updates] holds the
    given value, with [None] written as the empty string; and
    [last_checked_at], when not given, holds the clock reading.  No other
    column appears. *)
Theorem payload_holds_the_sheet_columns_given :
  forall (now : string) (updates : Dict.t (option string)),
    NoDup (Dict.keys updates) ->
    NoDup (Dict.keys (to_update_payload now updates))
    /\ forall field : string,
        Dict.get (to_update_payload now updates) field
        = if Dict.mem SHEET_COLUMNS field then
            match Dict.get updates field with
            | Some value => Some (or_empty value)
            | None => if String.eqb field "last_checked_at" then Some now else None
            end
          else None.
Proof.
  intros now updates Hnodup. unfold to_update_payload.
  set (payload := fold_left payload_item updates []).
  assert (Hget : forall field,
             Dict.get payload field
             = match (if Dict.mem SHEET_COLUMNS field
                      then Dict.get updates field else None) with
               | Some value => Some (or_empty value)
               | None => None
               end).
  { intro field. unfold payload. now rewrite (payload_loop_get updates Hnodup). }
  assert (Hkeys : NoDup (Dict.keys payload)).
  { unfold payload. apply payload_loop_NoDup. constructor. }
  clearbody payload.
  destruct (Dict.mem payload "last_checked_at") eqn:Hmem.
  - split; [exact Hkeys|]. intro field. rewrite Hget.
    destruct (Dict.mem SHEET_COLUMNS field) eqn:Hcol; [|reflexivity].
    destruct (Dict.get updates field) eqn:Hfield; [reflexivity|].
    destruct (String.eqb field "last_checked_at") eqn:Hlast; [|reflexivity].
    apply String.eqb_eq in Hlast. subst field.
    unfold Dict.mem in Hmem. rewrite Hget, Hcol, Hfield in Hmem. discriminate.
  - split; [now apply NoDup_keys_set|]. intro field. rewrite dict_get_set.
    rewrite (String.eqb_sym field).
    destruct (String.eqb "last_checked_at" field) eqn:Hlast.
    + apply String.eqb_eq in Hlast. subst field.
      unfold Dict.mem in Hmem. rewrite Hget in Hmem.
      change (Dict.mem SHEET_COLUMNS "last_checked_at") with true in *.
      cbv iota in *.
      destruct (Dict.get updates "last_checked_at"); [discriminate|reflexivity].
    + rewrite Hget.
      destruct (Dict.mem SHEET_COLUMNS field); [|reflexivity].
      now destruct (Dict.get updates field).
Qed.

(** *** What [update_row] writes *)

Lemma column_of_lock (field : string) :
  Dict.get SHEET_COLUMNS field = Some "T" -> field = "lock_manual_override".
Proof.
  unfold SHEET_COLUMNS. cbn -[String.eqb]. intro Hget.
  repeat match type of Hget with
         | (if String.eqb ?k field then _ else _) = _ =>
             destruct (String.eqb k field) eqn:?; [try discriminate Hget|]
         end;
    try discriminate Hget.
  match goal with
  | E : String.eqb _ field = true |- _ => apply String.eqb_eq in E; now subst field
  end.
Qed.

Lemma cell_updates_writable (name : string) (row_number : Z)
      (filtered : Dict.t (option string)) :
  Forall (fun item => Sheets.writable (fst item) = true) filtered ->
  exists data,
    Sheets.cell_updates name row_number filtered = Some data
    /\ length data = length filtered
    /\ Forall (fun cell =>
                 Sheets.column cell <> "T"
                 /\ Sheets.sheet cell = name
                 /\ Sheets.row_number cell = row_number)
              data.
Proof.
  induction 1 as [|[field value] rest Hw _ (data & Hdata & Hlen & Hcells)].
  - exists []. repeat split; constructor.
  - unfold Sheets.writable, Dict.mem in Hw. cbn [fst] in Hw.
    apply andb_true_iff in Hw. destruct Hw as [Hcol Hlock].
    cbn [Sheets.cell_updates].
    destruct (Dict.get SHEET_COLUMNS field) as [column|] eqn:Hfield;
      [|discriminate Hcol].
    rewrite Hdata. eexists. split; [reflexivity|]. cbn [length].
    split; [now rewrite Hlen|].
    constructor; [|exact Hcells].
    cbn [Sheets.column Sheets.sheet Sheets.row_number].
    split; [|now split].
    intros ->. apply column_of_lock in Hfield. subst field.
    vm_compute in Hlock. discriminate Hlock.
Qed.

Lemma find_column_none (col : string) (data : list Sheets.CellUpdate) :
  Forall (fun cell => Sheets.column cell <> col) data ->
  find (fun cell => String.eqb (Sheets.column cell) col) data = None.
Proof.
  induction 1 as [|cell data Hcell _ IH]; simpl; [reflexivity|].
  destruct (String.eqb (Sheets.column cell) col) eqn:Heq; [|exact IH].
  apply String.eqb_eq in Heq. contradiction.
Qed.

(** X15.  [update_row] never writes the lock column and never fails on a
    column lookup: whatever the updates, the request is not a [KeyError],
    it writes nothing in column T, and every cell of it lies in the main
    sheet on the line of the row.  No request is sent exactly when no
    update names a column other than the lock. *)
Theorem update_row_never_writes_lock_column :
  forall (name : string) (row : CompanyRow.t) (updates : Dict.t (option string)),
    Sheets.update_row name row updates <> Sheets.KeyError
    /\ Sheets.written (Sheets.update_row name row updates) "T" = None
    /\ match Sheets.update_row name row updates with
       | Sheets.BatchUpdate data =>
           Forall (fun cell =>
                     Sheets.sheet cell = name
                     /\ Sheets.row_number cell = row_index row + 1)
                  data
       | _ => True
       end
    /\ (Sheets.update_row name row updates = Sheets.NoRequest
        <-> Forall (fun item => Sheets.writable (fst item) = false) updates).
Proof.
  intros name row updates. unfold Sheets.update_row.
  set (filtered := filter (fun item => Sheets.writable (fst item)) updates).
  assert (Hw : Forall (fun item => Sheets.writable (fst item) = true) filtered).
  { apply Forall_forall. intros item Hitem. now apply filter_In in Hitem. }
  destruct (cell_updates_writable name (row_index row + 1) Hw)
    as (data & Hdata & Hlen & Hcells).
  rewrite Hdata.
  assert (Hnone : filtered = []
                  <-> Forall (fun item => Sheets.writable (fst item) = false) updates).
  { unfold filtered. clear. induction updates as [|item rest IH]; simpl.
    - split; [constructor|reflexivity].
    - destruct (Sheets.writable (fst item)) eqn:Hitem.
      + split; [discriminate|]. intro Hall. inversion Hall; subst; congruence.
      + rewrite IH. split.
        * intro Hall. now constructor.
        * intro Hall. now inversion Hall. }
  destruct filtered as [|item rest] eqn:Hf; simpl.
  - repeat split; try discriminate; try tauto.
  - split; [discriminate|]. split; [|split].
    + rewrite find_column_none; [reflexivity|].
      eapply Forall_impl; [|exact Hcells]. simpl. tauto.
    + eapply Forall_impl; [|exact Hcells]. simpl. tauto.
    + split; [discriminate|]. intro Hall. apply Hnone in Hall. discriminate.
Qed.

End SheetFacts.

(* ------------------------------------------------------------------ *)
(** ** The report *)

Module ReportingMore.
Import Reporting.

Section WithLib.
Context `{PyLib}.

Lemma news_item_complete (item : RawNews) :
  Forall complete (news_item item).
Proof.
  unfold news_item.
  destruct (Py.nonempty (str_strip (or_empty (date item)))) eqn:Hd;
    [|constructor].
  destruct (Py.nonempty (str_strip (or_empty (headline item)))) eqn:Hh;
    [|constructor].
  destruct (Py.nonempty (str_strip (or_empty (url item)))) eqn:Hu;
    [|constructor].
  simpl. constructor; [|constructor]. now repeat split.
Qed.

Lemma news_item_length (item : RawNews) : (length (news_item item) <= 1)%nat.
Proof.
  unfold news_item. destruct (_ && _); simpl; lia.
Qed.

Lemma flat_map_news_length (items : list RawNews) :
  (length (flat_map news_item items) <= length items)%nat.
Proof.
  induction items as [|item items IH]; simpl; [lia|].
  rewrite length_app. pose proof (news_item_length item). lia.
Qed.

Lemma flat_map_news_complete (items : list RawNews) :
  Forall complete (flat_map news_item items).
Proof.
  induction items as [|item items IH]; simpl; [constructor|].
  apply Forall_app. split; [apply news_item_complete|exact IH].
Qed.

(** X16.  The limits of a report hold whatever the response holds: at
    most five bullets, at most three news items, each with a non-empty
    date, headline and URL, and at most five competitors. *)
Theorem report_limits_hold_for_any_response :
  forall data : ReportData,
    (length (ReportResult.business_bullets (generate data)) <= 5)%nat
    /\ (length (ReportResult.recent_news (generate data)) <= 3)%nat
    /\ Forall complete (ReportResult.recent_news (generate data))
    /\ (length (ReportResult.competitors_hint (generate data)) <= 5)%nat.
Proof.
  intro data. unfold generate.
  cbn [ReportResult.business_bullets ReportResult.recent_news
       ReportResult.competitors_hint].
  split; [apply firstn_le_length|].
  split; [|split; [apply flat_map_news_complete|apply firstn_le_length]].
  pose proof (flat_map_news_length (firstn 3 (recent_news data))) as Hlen.
  pose proof (firstn_le_length 3 (recent_news data)). lia.
Qed.

End WithLib.
End ReportingMore.

(* ------------------------------------------------------------------ *)
(** ** The processor *)

Module ProcessorMore.
Import Processor.

(** X17.  The status of a prepared row.  The payload says [ok] exactly
    when a report was generated and both a main e-mail address and a
    phone number were found; otherwise it says [needs_review], never
    [error], and the error detail is non-empty exactly in that case. *)
Theorem prepared_status_is_ok_or_needs_review :
  forall (now official_url resolved_domain : string)
         (extraction : ExtractionResult.t) (report : option ReportResult.t),
    let payload :=
      _prepare_updates now official_url resolved_domain extraction report in
    let complete :=
      match report with Some _ => true | None => false end
      && Py.truthy (ExtractionResult.email_main extraction)
      && Py.truthy (ExtractionResult.phone_main extraction) in
    Dict.get payload "status"
    = Some (if complete then STATUS_OK else STATUS_REVIEW)
    /\ Py.truthy (Dict.get payload "error_detail") = negb complete.
Proof.
  intros now official_url resolved_domain extraction report.
  unfold _prepare_updates.
  destruct report as [report|];
    destruct (Py.truthy (ExtractionResult.email_main extraction));
    destruct (Py.truthy (ExtractionResult.phone_main extraction));
    split; vm_compute; reflexivity.
Qed.

(** X18.  What processing a row sends to the sheet.  The request for a
    prepared payload is always sent; it writes the clock reading in the
    [last_checked_at] column S and the status in column U, and it never
    writes the company name (column A) or the lock (column T). *)
Theorem prepared_payload_request :
  forall (name now official_url resolved_domain : string) (row : CompanyRow.t)
         (extraction : ExtractionResult.t) (report : option ReportResult.t),
    let payload :=
      _prepare_updates now official_url resolved_domain extraction report in
    let request := Sheets.update_row name row (Sheets.as_updates payload) in
    (exists data, request = Sheets.BatchUpdate data)
    /\ Sheets.written request "S" = Some now
    /\ Sheets.written request "U" = Dict.get payload "status"
    /\ Sheets.written request "A" = None
    /\ Sheets.written request "T" = None.
Proof.
  intros name now official_url resolved_domain row extraction report.
  unfold _prepare_updates.
  destruct report as [report|];
    destruct (Py.truthy (ExtractionResult.email_main extraction));
    destruct (Py.truthy (ExtractionResult.phone_main extraction));
    (split; [eexists; vm_compute; reflexivity|]);
    repeat split; vm_compute; reflexivity.
Qed.

(** *** Which rows a run takes *)

Section WithWorld.
Context {World Outcome : Type}.
Variable process_row : CompanyRow.t -> World -> option Outcome * World.
Variable fetch_rows : World -> option (list CompanyRow.t) * World.

(** The result of a run, with the outcomes collected before put in front. *)
Local Abbreviation after outcomes result :=
  (option_map (app outcomes) (fst result), snd result).

Lemma process_rows_without_limit (force : bool) (limit : option Z) :
  (forall outcomes : list Outcome, limit_reached limit outcomes = false) ->
  forall (rows : list CompanyRow.t) (outcomes : list Outcome) (w : World),
    process_rows process_row force limit rows outcomes w
    = after outcomes
            (run_rows process_row
                      (filter (fun row => negb (skips force row)) rows) w).
Proof.
  intro Hnever. induction rows as [|row rest IH]; intros outcomes w; simpl.
  - now rewrite app_nil_r.
  - destruct (skips force row); simpl; [apply IH|].
    destruct (process_row row w) as [[outcome|] w1]; [|reflexivity].
    rewrite Hnever, IH.
    destruct (run_rows process_row _ w1) as [[rest_outcomes|] w2]; simpl;
      [|reflexivity].
    now rewrite <- app_assoc.
Qed.

Lemma limit_reached_bound (n : Z) (outcomes : list Outcome) :
  n <> 0 ->
  outcomes <> [] ->
  limit_reached (Some n) outcomes
  = (Z.to_nat (Z.max 1 n) <=? length outcomes)%nat.
Proof.
  intros Hn Hsome. unfold limit_reached.
  assert (Hlen : (0 < length outcomes)%nat)
    by (destruct outcomes; [contradiction|simpl; lia]).
  destruct (Z.eqb_spec n 0) as [|_]; [contradiction|]. simpl.
  destruct (Nat.leb_spec (Z.to_nat (Z.max 1 n)) (length outcomes));
    [apply Z.geb_le|rewrite Z.geb_leb; apply Z.leb_gt]; lia.
Qed.

Lemma process_rows_with_limit (force : bool) (n : Z) :
  n <> 0 ->
  forall (rows : list CompanyRow.t) (outcomes : list Outcome) (w : World),
    (length outcomes < Z.to_nat (Z.max 1 n))%nat ->
    process_rows process_row force (Some n) rows outcomes w
    = after outcomes
            (run_rows process_row
                      (firstn (Z.to_nat (Z.max 1 n) - length outcomes)
                              (filter (fun row => negb (skips force row)) rows))
                      w).
Proof.
  intro Hn. set (bound := Z.to_nat (Z.max 1 n)).
  induction rows as [|row rest IH]; intros outcomes w Hless.
  - simpl. rewrite firstn_nil. simpl. now rewrite app_nil_r.
  - cbn [process_rows filter].
    destruct (skips force row); cbn [negb]; [now apply IH|].
    destruct (bound - length outcomes)%nat as [|more] eqn:Hmore; [lia|].
    cbn [firstn run_rows].
    destruct (process_row row w) as [[outcome|] w1]; [|reflexivity].
    rewrite limit_reached_bound;
      [|exact Hn|intro Hnil; now apply app_eq_nil in Hnil].
    fold bound. rewrite length_app. cbn [length].
    destruct (Nat.leb_spec bound (length outcomes + 1)) as [Hreached|Hnot].
    + assert (more = 0)%nat as -> by lia. rewrite firstn_O. reflexivity.
    + rewrite IH; [|rewrite length_app; simpl; lia].
      rewrite length_app. cbn [length].
      replace (bound - (length outcomes + 1))%nat with more by lia.
      destruct (run_rows process_row _ w1) as [[rest_outcomes|] w2]; simpl;
        [|reflexivity].
      now rewrite <- app_assoc.
Qed.

(** X19.  Which rows a run takes.  [process_sheet] calls [process_row] on
    the rows that no test skips, in sheet order, and stops after the
    limit: no limit and the limit 0 take every such row, a positive limit
    takes the first [limit] of them, and a negative limit takes one.  An
    exception of [fetch_rows] or of a [process_row] call ends the run. *)
Theorem process_sheet_takes_first_eligible_rows :
  forall (force : bool) (limit : option Z) (w : World),
    process_sheet process_row fetch_rows force limit w
    = match fetch_rows w with
      | (None, w) => (None, w)
      | (Some rows, w) => run_rows process_row (selected force limit rows) w
      end.
Proof.
  intros force limit w. unfold process_sheet, selected.
  destruct (fetch_rows w) as [[rows|] w1]; [|reflexivity].
  destruct limit as [n|].
  - destruct (Z.eqb_spec n 0) as [->|Hn].
    + rewrite process_rows_without_limit; [|reflexivity].
      destruct (run_rows process_row _ w1) as [[outcomes|] w2]; reflexivity.
    + rewrite process_rows_with_limit; [|exact Hn|simpl; lia].
      cbn [length]. rewrite Nat.sub_0_r.
      destruct (run_rows process_row _ w1) as [[outcomes|] w2]; reflexivity.
  - rewrite process_rows_without_limit; [|reflexivity].
    destruct (run_rows process_row _ w1) as [[outcomes|] w2]; reflexivity.
Qed.

End WithWorld.

(** X20.  Rows a run never takes: a row without a company name, a locked
    row and, unless forced, a row whose status is set and is none of
    [pending], [needs_review] and [error]. *)
Theorem settled_and_locked_rows_are_not_selected :
  forall (force : bool) (limit : option Z) (rows : list CompanyRow.t),
    Forall (fun row =>
              Py.nonempty (CompanyRow.company_name row) = true
              /\ CompanyRow.lock_manual_override row = false
              /\ (force = true
                  \/ Py.truthy (CompanyRow.status row) = false
                  \/ In (CompanyRow.status row)
                        [Some STATUS_PENDING; Some STATUS_REVIEW; Some STATUS_ERROR])
              /\ In row rows)
           (selected force limit rows).
Proof.
  intros force limit rows.
  assert (Hall : Forall (fun row =>
              Py.nonempty (CompanyRow.company_name row) = true
              /\ CompanyRow.lock_manual_override row = false
              /\ (force = true
                  \/ Py.truthy (CompanyRow.status row) = false
                  \/ In (CompanyRow.status row)
                        [Some STATUS_PENDING; Some STATUS_REVIEW; Some STATUS_ERROR])
              /\ In row rows)
           (filter (fun row => negb (skips force row)) rows)).
  { apply Forall_forall. intros row Hrow. apply filter_In in Hrow.
    destruct Hrow as [Hin Hkept]. unfold skips in Hkept.
    destruct (Py.nonempty (CompanyRow.company_name row)); [|discriminate].
    destruct (CompanyRow.lock_manual_override row); [discriminate|].
    simpl in Hkept. repeat split; try exact Hin.
    destruct force; [now left|right]. simpl in Hkept.
    destruct (CompanyRow.status row) as [status|]; [|now left].
    destruct (Py.truthy (Some status)); [right|now left]. simpl in Hkept.
    destruct (String.eqb status STATUS_PENDING) eqn:E1;
      [apply String.eqb_eq in E1; subst; now left|].
    destruct (String.eqb status STATUS_REVIEW) eqn:E2;
      [apply String.eqb_eq in E2; subst; right; now left|].
    destruct (String.eqb status STATUS_ERROR) eqn:E3;
      [apply String.eqb_eq in E3; subst; right; right; now left|].
    discriminate. }
  unfold selected. destruct limit as [n|]; [|exact Hall].
  destruct (n =? 0); [exact Hall|].
  rewrite <- (firstn_skipn (Z.to_nat (Z.max 1 n))) in Hall.
  now apply Forall_app in Hall.
Qed.

End ProcessorMore.

(* ------------------------------------------------------------------ *)
(** ** The further properties on the examples *)

Module MoreChecks.
Import Example.

Local Abbreviation start := "https://example.co.jp".
Local Abbreviation nowhere := "https://nowhere.example".

Local Abbreviation candidates :=
  [SearchResult.mk "Acme (mirror)" nowhere None None;
   SearchResult.mk "Example" start None (Some 1)].

(** X3 on the example site: the first candidate cannot be fetched, the
    second is selected. *)
Lemma selected_candidate_on_example :
  exists c,
    fst (@Selector.select Example.lib _ (logged web) "Example" candidates (tt, []))
    = Some c
    /\ @More.well_formed_pick Example.lib
         (@Selector._normalize_company_name Example.lib "Example") candidates
         (snd (snd (@Selector.select Example.lib _ (logged web) "Example"
                      candidates (tt, []))))
         c.
Proof.
  destruct (fst (@Selector.select Example.lib _ (logged web) "Example"
                   candidates (tt, [])))
    as [c|] eqn:Hrun; [|vm_compute in Hrun; discriminate].
  exists c. split; [reflexivity|].
  exact (@SelectorMore.selected_candidate_is_a_fetched_input
           Example.lib unit web "Example" candidates tt c Hrun).
Defined.

(** X4 on the example site. *)
Lemma successful_fetches_on_example :
  exists pages calls,
    @Crawler.crawl Example.lib _ (logged web) (settings 6) 10 start (tt, [])
    = Some (pages, (tt, calls))
    /\ pages = More.successes calls.
Proof.
  destruct (@Crawler.crawl Example.lib _ (logged web) (settings 6) 10 start (tt, []))
    as [[pages [[] calls]]|] eqn:Hrun; [|vm_compute in Hrun; discriminate].
  exists pages, calls. split; [reflexivity|].
  exact (@CrawlerMore.crawl_returns_successful_fetches_in_order
           Example.lib unit web (settings 6) 10%nat start tt tt pages calls Hrun).
Defined.


(** X7 on the example site, from a start URL that cannot be fetched. *)
Lemma unreachable_start_on_example :
  web nowhere tt = (None, tt)
  /\ (exists fuel out,
         @Crawler.crawl Example.lib _ web (settings 6) fuel nowhere tt = Some out)
  /\ forall fuel pages w',
      @Crawler.crawl Example.lib _ web (settings 6) fuel nowhere tt
      = Some (pages, w') ->
      pages = [].
Proof.
  split; [reflexivity|].
  exact (@CrawlerMore.crawl_of_unreachable_start_is_empty
           Example.lib unit web (settings 6) nowhere tt tt eq_refl).
Defined.

(** X8 on the example site, with a depth limit of 0. *)
Lemma crawl_without_depth_on_example :
  exists pages calls,
    Settings.crawler_max_depth (Settings.mk 6 0) <= 0
    /\ @Crawler.crawl Example.lib _ (logged web) (Settings.mk 6 0) 10 start (tt, [])
       = Some (pages, (tt, calls))
    /\ (calls = [] \/ exists r, calls = [(start, r)])
    /\ (length pages <= 1)%nat.
Proof.
  destruct (@Crawler.crawl Example.lib _ (logged web) (Settings.mk 6 0) 10 start
              (tt, []))
    as [[pages [[] calls]]|] eqn:Hrun; [|vm_compute in Hrun; discriminate].
  exists pages, calls.
  assert (Hdepth : Settings.crawler_max_depth (Settings.mk 6 0) <= 0)
    by (simpl; lia).
  split; [exact Hdepth|]. split; [reflexivity|].
  exact (@CrawlerMore.crawl_without_depth_fetches_only_start
           Example.lib unit web (Settings.mk 6 0) 10%nat start tt tt pages calls
           Hdepth Hrun).
Defined.

(** X10 on two pages without a fax marker. *)
Lemma no_fax_on_example :
  Forall (fun page =>
            Forall (fun snippet => @More.has_fax_marker Example.lib snippet = false)
                   (@More.text_snippets Example.lib
                      (@BeautifulSoup Example.lib (PageContent.html page))))
         [home_page; mail_page]
  /\ ExtractionResult.fax_main
       (@Extractor.extract_contact_info Example.lib [home_page; mail_page] start)
     = None.
Proof.
  assert (Hno : Forall (fun page =>
            Forall (fun snippet => @More.has_fax_marker Example.lib snippet = false)
                   (@More.text_snippets Example.lib
                      (@BeautifulSoup Example.lib (PageContent.html page))))
         [home_page; mail_page]).
  { repeat constructor. }
  split; [exact Hno|].
  exact (@ExtractorMore.no_fax_without_fax_marker
           Example.lib [home_page; mail_page] start Hno).
Defined.

Local Abbreviation some_updates :=
  [("status", Some "ok"); ("error_detail", None); ("comment", Some "unused")].

(** X14 on updates that name two columns and one other field. *)
Lemma payload_on_example :
  NoDup (Dict.keys some_updates)
  /\ NoDup (Dict.keys (CompanyRow.to_update_payload "2024-01-01T00:00:00+00:00"
                         some_updates))
  /\ forall field : string,
      Dict.get (CompanyRow.to_update_payload "2024-01-01T00:00:00+00:00"
                  some_updates) field
      = if Dict.mem SHEET_COLUMNS field then
          match Dict.get some_updates field with
          | Some value => Some (or_empty value)
          | None =>
              if String.eqb field "last_checked_at"
              then Some "2024-01-01T00:00:00+00:00"
              else None
          end
        else None.
Proof.
  assert (Hkeys : NoDup (Dict.keys some_updates)).
  { repeat constructor; simpl; intuition discriminate. }
  split; [exact Hkeys|].
  exact (SheetFacts.payload_holds_the_sheet_columns_given
           "2024-01-01T00:00:00+00:00" some_updates Hkeys).
Defined.

End MoreChecks.
